(** * chat_handler: streaming chat responder and submission merger

    A shallow embedding of [src/chat_handler.py].  The two Python generators
    [chat_respond] and [handle_chat_submit] are run to completion against a
    [World], a description of what the external collaborators (token proxy,
    inference provider, clock, helper module [utils]) answer; the result of a
    run is the ordered trace of the observable events (calls to the
    collaborators and yielded items) and the way the generator stops.

    Conventions of the model:
    - a run is that of a generator driven until it stops; what is left of it
      when the consumer closes the generator first is [closed_after];
    - [report_token_status] and [format_error_message] return without
      raising; the construction of [InferenceClient] is part of the event of
      the call it is built for;
    - the progress lines printed to standard output are left out;
    - readings of [time.time()] and durations are rationals, in seconds;
    - a Python [str] is held as the bytes of its UTF-8 encoding;
    - every call submitted to the executor ends, in time or late: a call that
      never returns is outside the model. *)

From Stdlib Require Import String Ascii List Bool NArith ZArith QArith Lia.
From Stdlib Require Import DecimalString.
Import ListNotations.

Local Open Scope list_scope.
Local Open Scope string_scope.

(** ** Python values used by the handler *)

(** Truthiness of a [str]: the empty string is falsy. *)
Definition str_truthy (s : string) : bool :=
  match s with
  | EmptyString => false
  | String _ _ => true
  end.

(** Truthiness of a value that is [None] or a [str]. *)
Definition opt_truthy (v : option string) : bool :=
  match v with
  | None => false
  | Some s => str_truthy s
  end.

(** [needle in hay] on strings. *)
Fixpoint str_in (needle hay : string) : bool :=
  prefix needle hay ||
  match hay with
  | EmptyString => false
  | String _ hay' => str_in needle hay'
  end.

(** [str.isspace] on a code point: the characters of category Zs and of
    bidirectional class WS, B or S, that is U+0009-000D, U+001C-0020, U+0085,
    U+00A0, U+1680, U+2000-200A, U+2028, U+2029, U+202F, U+205F, U+3000. *)
Definition isspace (cp : N) : bool :=
  (((9 <=? cp) && (cp <=? 13)) || ((28 <=? cp) && (cp <=? 32))
   || (cp =? 133) || (cp =? 160) || (cp =? 5760)
   || ((8192 <=? cp) && (cp <=? 8202))
   || (cp =? 8232) || (cp =? 8233) || (cp =? 8239) || (cp =? 8287)
   || (cp =? 12288))%N.

(** The UTF-8 encoding of a code point. *)
Definition utf8 (cp : N) : string :=
  (if cp <? 128 then String (ascii_of_N cp) ""
   else if cp <? 2048 then
     String (ascii_of_N (192 + cp / 64))
       (String (ascii_of_N (128 + cp mod 64)) "")
   else if cp <? 65536 then
     String (ascii_of_N (224 + cp / 4096))
       (String (ascii_of_N (128 + (cp / 64) mod 64))
          (String (ascii_of_N (128 + cp mod 64)) ""))
   else
     String (ascii_of_N (240 + cp / 262144))
       (String (ascii_of_N (128 + (cp / 4096) mod 64))
          (String (ascii_of_N (128 + (cp / 64) mod 64))
             (String (ascii_of_N (128 + cp mod 64)) ""))))%N.

(** The string of a sequence of code points. *)
Definition encode_utf8 (cps : list N) : string :=
  fold_right (fun cp s => utf8 cp ++ s) "" cps.

(** The payload of a continuation byte. *)
Definition continuation (a : ascii) : option N :=
  let n := N_of_ascii a in
  if ((128 <=? n) && (n <? 192))%N then Some (n - 128)%N else None.

(** What a byte that begins no character is read as: U+FFFD, which is no
    white space. *)
Definition replacement : N := 65533%N.

(** The code points of a string. *)
Fixpoint decode_utf8 (s : string) : list N :=
  match s with
  | EmptyString => []
  | String a s1 =>
      let n := N_of_ascii a in
      if (n <? 128)%N then n :: decode_utf8 s1
      else if (n <? 192)%N then replacement :: decode_utf8 s1
      else if (n <? 224)%N then
        match s1 with
        | String b s2 =>
            match continuation b with
            | Some x => ((n - 192) * 64 + x)%N :: decode_utf8 s2
            | None => replacement :: decode_utf8 s1
            end
        | EmptyString => replacement :: decode_utf8 s1
        end
      else if (n <? 240)%N then
        match s1 with
        | String b (String c s3) =>
            match continuation b, continuation c with
            | Some x, Some y =>
                ((n - 224) * 4096 + x * 64 + y)%N :: decode_utf8 s3
            | _, _ => replacement :: decode_utf8 s1
            end
        | _ => replacement :: decode_utf8 s1
        end
      else if (n <? 248)%N then
        match s1 with
        | String b (String c (String d s4)) =>
            match continuation b, continuation c, continuation d with
            | Some x, Some y, Some z =>
                ((n - 240) * 262144 + x * 4096 + y * 64 + z)%N
                  :: decode_utf8 s4
            | _, _, _ => replacement :: decode_utf8 s1
            end
        | _ => replacement :: decode_utf8 s1
        end
      else replacement :: decode_utf8 s1
  end.

(** One step of [decode_utf8], the recursive calls being [rec]. *)
Definition decode_step (rec : string -> list N) (s : string) : list N :=
  match s with
  | EmptyString => []
  | String a s1 =>
      let n := N_of_ascii a in
      if (n <? 128)%N then n :: rec s1
      else if (n <? 192)%N then replacement :: rec s1
      else if (n <? 224)%N then
        match s1 with
        | String b s2 =>
            match continuation b with
            | Some x => ((n - 192) * 64 + x)%N :: rec s2
            | None => replacement :: rec s1
            end
        | EmptyString => replacement :: rec s1
        end
      else if (n <? 240)%N then
        match s1 with
        | String b (String c s3) =>
            match continuation b, continuation c with
            | Some x, Some y =>
                ((n - 224) * 4096 + x * 64 + y)%N :: rec s3
            | _, _ => replacement :: rec s1
            end
        | _ => replacement :: rec s1
        end
      else if (n <? 248)%N then
        match s1 with
        | String b (String c (String d s4)) =>
            match continuation b, continuation c, continuation d with
            | Some x, Some y, Some z =>
                ((n - 240) * 262144 + x * 4096 + y * 64 + z)%N :: rec s4
            | _, _, _ => replacement :: rec s1
            end
        | _ => replacement :: rec s1
        end
      else replacement :: rec s1
  end.

(** [str.lstrip()] and [str.rstrip()] on code points: the leading, the
    trailing white space is dropped. *)
Fixpoint lstrip (l : list N) : list N :=
  match l with
  | [] => []
  | c :: l' => if isspace c then lstrip l' else l
  end.

Definition rstrip (l : list N) : list N := rev (lstrip (rev l)).

(** [str.strip()] with no argument. *)
Definition strip (s : string) : string :=
  encode_utf8 (rstrip (lstrip (decode_utf8 s))).

(** Decimal rendering of an integer inside an f-string. *)
Definition str_of_Z (z : Z) : string := NilZero.string_of_int (Z.to_int z).

(** ** Data model *)

(** A conversation turn, the dict [{"role": ..., "content": ...}]. *)
Record Message := { role : string; content : string }.

Definition Message_eq_dec (a b : Message) : {a = b} + {a <> b}.
Proof. decide equality; apply string_dec. Defined.

(** One element of [message.choices]: only [delta.content] is read, and it is
    [None] or a [str]. *)
Record Choice := { delta_content : option string }.

(** One message of the provider's stream. *)
Record Chunk := { choices : list Choice }.

(** Exceptions, by the classes the handlers of [chat_respond] tell apart;
    each carries what [str(e)] returns. *)
Inductive exn : Type :=
| RequestsConnectionError (text : string)
| BuiltinTimeoutError (text : string)
| FuturesTimeoutError (text : string)
| HfHubHTTPError (status_code : Z) (text : string)
| OtherException (text : string).

Definition str_exn (e : exn) : string :=
  match e with
  | RequestsConnectionError t => t
  | BuiltinTimeoutError t => t
  | FuturesTimeoutError t => t
  | HfHubHTTPError _ t => t
  | OtherException t => t
  end.

(** Result of a call that may raise. *)
Inductive result (A : Type) : Type :=
| Returns (a : A)
| Raises (e : exn).
Arguments Returns {A} a.
Arguments Raises {A} e.

(** The provider's stream: the messages it delivers, each with the reading
    of [time.time()] taken at the top of the loop body for it, and how the
    iteration ends ([None]: exhausted; [Some e]: the iterator raises [e]). *)
Record Stream := {
  stream_items : list (Q * Chunk);
  stream_ending : option exn
}.

(** The keyword arguments of [client.chat_completion]. *)
Record ChatCompletionKwargs := {
  kw_model : string;
  kw_messages : list Message;
  kw_max_tokens : Z;
  kw_stream : bool;
  kw_temperature : Q;
  kw_top_p : Q
}.

(** The call submitted to the executor: how long it runs and what it gives.
    The duration is finite: a call that never returns, for which leaving the
    [with] block of the executor never returns either, is not described. *)
Record PendingCall := {
  call_duration : Q;
  call_result : result Stream
}.

(** The collaborators of one run. *)
Record World := {
  (* utils.validate_proxy_key() *)
  validate_proxy_key : bool * string;
  (* os.getenv("PROXY_KEY") *)
  getenv_PROXY_KEY : option string;
  (* hf_token_utils.get_proxy_token(api_key=...) *)
  get_proxy_token : option string -> result (string * string);
  (* utils.parse_model_and_provider(model_name) *)
  parse_model_and_provider : string -> result (string * option string);
  (* InferenceClient(provider, api_key).chat_completion with the kwargs *)
  chat_completion : string -> string -> ChatCompletionKwargs -> PendingCall;
  (* the reading of time.time() once the stream is obtained *)
  stream_start_time : Q;
  (* utils.format_error_message(error_type, error_message) *)
  format_error_message : string -> string -> string;
  (* whether concurrent.futures.TimeoutError is the builtin TimeoutError
     (it is an alias of it from Python 3.11 on) *)
  futures_timeout_is_builtin : bool
}.

(** ** Events and the generator monad *)

Inductive event (Y : Type) : Type :=
| EvValidateKey
| EvGetToken (api_key : option string)
| EvChatCompletion (provider api_key : string) (kwargs : ChatCompletionKwargs)
| EvReport (token_id status : string) (error : option string)
           (api_key : option string)
| EvYield (y : Y).
Arguments EvValidateKey {Y}.
Arguments EvGetToken {Y} api_key.
Arguments EvChatCompletion {Y} provider api_key kwargs.
Arguments EvReport {Y} token_id status error api_key.
Arguments EvYield {Y} y.

(** A piece of generator body: from the current value of the local
    [token_id] to the events performed, the new [token_id] and the result. *)
Definition Gen (Y A : Type) : Type :=
  option string -> list (event Y) * option string * result A.

Definition gret {Y A} (a : A) : Gen Y A := fun st => ([], st, Returns a).

Definition gbind {Y A B} (m : Gen Y A) (k : A -> Gen Y B) : Gen Y B :=
  fun st =>
    match m st with
    | (tr, st', Returns a) =>
        match k a st' with
        | (tr', st'', r) => ((tr ++ tr')%list, st'', r)
        end
    | (tr, st', Raises e) => (tr, st', Raises e)
    end.

Definition raise {Y A} (e : exn) : Gen Y A := fun st => ([], st, Raises e).

Definition emit {Y} (ev : event Y) : Gen Y unit :=
  fun st => ([ev], st, Returns tt).

(** A yield, after which the consumer resumes the generator; for a consumer
    that closes it instead see [closed_after]. *)
Definition yield {Y} (y : Y) : Gen Y unit := emit (EvYield y).

(** An external call: its event, then its answer. *)
Definition call {Y A} (ev : event Y) (r : result A) : Gen Y A :=
  fun st => ([ev], st, r).

Definition lift {Y A} (r : result A) : Gen Y A := fun st => ([], st, r).

Definition get_token_id {Y} : Gen Y (option string) :=
  fun st => ([], st, Returns st).

Definition set_token_id {Y} (v : option string) : Gen Y unit :=
  fun _ => ([], v, Returns tt).

(** [try: m  except Exception as e: h e] where [h] re-raises what it does not
    handle. *)
Definition try_except {Y A} (m : Gen Y A) (h : exn -> Gen Y A) : Gen Y A :=
  fun st =>
    match m st with
    | (tr, st', Returns a) => (tr, st', Returns a)
    | (tr, st', Raises e) =>
        match h e st' with
        | (tr', st'', r) => ((tr ++ tr')%list, st'', r)
        end
    end.

Declare Scope gen_scope.
Delimit Scope gen_scope with gen.
Notation "x <- c1 ;; c2" := (gbind c1 (fun x => c2))
  (at level 61, c1 at next level, right associativity) : gen_scope.
Notation "' pat <- c1 ;; c2" :=
  (gbind c1 (fun x => match x with pat => c2 end))
  (at level 61, pat pattern, c1 at next level, right associativity) : gen_scope.
Notation "c1 ;; c2" := (gbind c1 (fun _ => c2))
  (at level 61, right associativity) : gen_scope.
Local Open Scope gen_scope.

(** Running a generator from [token_id = None]. *)
Definition run {Y A} (g : Gen Y A) : list (event Y) * option string * result A :=
  g None.

Definition trace_of {Y A} (g : Gen Y A) : list (event Y) := fst (fst (run g)).
Definition result_of {Y A} (g : Gen Y A) : result A := snd (run g).

(** ** chat_respond *)

Definition INFERENCE_TIMEOUT : Z := 120%Z.
Definition token_timeout : Z := 30%Z.

(** [isinstance(e, FutureTimeoutError)] *)
Definition is_FutureTimeoutError (w : World) (e : exn) : bool :=
  match e with
  | FuturesTimeoutError _ => true
  | BuiltinTimeoutError _ => futures_timeout_is_builtin w
  | _ => false
  end.

(** [isinstance(e, ConnectionError)], the class imported from
    [requests.exceptions]. *)
Definition is_ConnectionError (e : exn) : bool :=
  match e with
  | RequestsConnectionError _ => true
  | _ => false
  end.

(** [isinstance(e, TimeoutError)], the builtin. *)
Definition is_TimeoutError (w : World) (e : exn) : bool :=
  match e with
  | BuiltinTimeoutError _ => true
  | FuturesTimeoutError _ => futures_timeout_is_builtin w
  | _ => false
  end.

Definition is_HfHubHTTPError (e : exn) : bool :=
  match e with
  | HfHubHTTPError _ _ => true
  | _ => false
  end.

(** [future.result(timeout=INFERENCE_TIMEOUT)]: the value or the exception of
    the call when it is done in time, [FutureTimeoutError] otherwise.  For a
    call done at the very deadline the source decides by a race; here it
    counts as done in time. *)
Definition future_result {Y} (c : PendingCall) (timeout : Z) : Gen Y Stream :=
  if Qle_bool (call_duration c) (inject_Z timeout)
  then lift (call_result c)
  else raise (FuturesTimeoutError "").

(** The body of [for message in stream], lines 101-115. *)
Fixpoint stream_loop (items : list (Q * Chunk)) (ending : option exn)
    (response : string) (last_token_time : Q) : Gen string unit :=
  match items with
  | [] =>
      match ending with
      | None => gret tt
      | Some e => raise e
      end
  | (current_time, message) :: rest =>
      if negb (Qle_bool (current_time - last_token_time)%Q (inject_Z token_timeout))
      then raise (BuiltinTimeoutError
                    ("No response received for " ++ str_of_Z token_timeout
                     ++ " seconds during streaming"))
      else
        let token_content := "" in
        let '(token_content, last_token_time) :=
          match choices message with
          | c :: _ =>
              if opt_truthy (delta_content c)
              then (match delta_content c with Some s => s | None => "" end,
                    current_time)
              else (token_content, last_token_time)
          | [] => (token_content, last_token_time)
          end in
        let response := response ++ token_content in
        yield response ;;
        stream_loop rest ending response last_token_time
  end.

(** [if token_id: report_token_status(token_id, status, error, api_key=...)] *)
Definition report_if_held {Y} (status : string) (error : option string)
    (proxy_api_key : option string) : Gen Y unit :=
  token_id <- get_token_id ;;
  if opt_truthy token_id
  then emit (EvReport (match token_id with Some t => t | None => "" end)
                      status error proxy_api_key)
  else gret tt.

(** Lines 57-59: the message list sent to the provider. *)
Definition prepare_messages (system_message : string)
    (history : list Message) (message : string) : list Message :=
  let messages := [{| role := "system"; content := system_message |}] in
  let messages := (messages ++ history)%list in
  let messages :=
    (messages ++ [{| role := "user"; content := message |}])%list in
  messages.

(** [provider if provider else "auto"] *)
Definition provider_or_auto (provider : option string) : string :=
  if opt_truthy provider
  then match provider with Some p => p | None => "" end
  else "auto".

(** Lines 71-78. *)
Definition chat_completion_kwargs (model : string) (messages : list Message)
    (max_tokens : Z) (temperature top_p : Q) : ChatCompletionKwargs :=
  {| kw_model := model;
     kw_messages := messages;
     kw_max_tokens := max_tokens;
     kw_stream := true;
     kw_temperature := temperature;
     kw_top_p := top_p |}.

(** The [with ThreadPoolExecutor(...)] block, lines 89-119; [future] is the
    submitted [create_stream] call.  Leaving the block waits for the worker,
    so the model covers calls that end, in time or late. *)
Definition stream_with_timeout (w : World) (future : PendingCall)
    (response : string) : Gen string unit :=
  try_except
    (stream <- future_result future INFERENCE_TIMEOUT ;;
     let last_token_time := stream_start_time w in
     stream_loop (stream_items stream) (stream_ending stream)
                 response last_token_time)
    (fun e =>
       if is_FutureTimeoutError w e
       then raise (BuiltinTimeoutError
                     ("Chat request timed out after "
                      ++ str_of_Z INFERENCE_TIMEOUT ++ " seconds"))
       else raise e).

(** The [try] block, lines 46-123. *)
Definition chat_respond_try (w : World) (message : string)
    (history : list Message) (system_message model_name : string)
    (max_tokens : Z) (temperature top_p : Q)
    (proxy_api_key : option string) : Gen string unit :=
  ' (token, token_id) <-
      call (EvGetToken proxy_api_key) (get_proxy_token w proxy_api_key) ;;
  set_token_id (Some token_id) ;;
  ' (model, provider) <- lift (parse_model_and_provider w model_name) ;;
  let messages := prepare_messages system_message history message in
  let client_provider := provider_or_auto provider in
  let kwargs :=
    chat_completion_kwargs model messages max_tokens temperature top_p in
  let response := "" in
  (* executor.submit(create_stream) *)
  emit (EvChatCompletion client_provider token kwargs) ;;
  let future := chat_completion w client_provider token kwargs in
  stream_with_timeout w future response ;;
  report_if_held "success" None proxy_api_key.

(** The four handlers, lines 125-164. *)
Definition chat_respond_except (w : World) (proxy_api_key : option string)
    (e : exn) : Gen string unit :=
  if is_ConnectionError e then
    let error_msg := "Cannot connect to HF-Inferoxy server: " ++ str_exn e in
    report_if_held "error" (Some error_msg) proxy_api_key ;;
    yield (format_error_message w "Connection Error"
             "Unable to connect to the proxy server. Please check if it's running.")
  else if is_TimeoutError w e then
    let error_msg := "Request timed out: " ++ str_exn e in
    report_if_held "error" (Some error_msg) proxy_api_key ;;
    yield (format_error_message w "Timeout Error"
             "The request took too long. The server may be overloaded. Please try again.")
  else if is_HfHubHTTPError e then
    let error_msg := str_exn e in
    report_if_held "error" (Some error_msg) proxy_api_key ;;
    if str_in "401" error_msg then
      yield (format_error_message w "Authentication Error"
               "Invalid or expired API token. The proxy will provide a new token on retry.")
    else if str_in "402" error_msg then
      yield (format_error_message w "Quota Exceeded"
               "API quota exceeded. The proxy will try alternative providers.")
    else if str_in "429" error_msg then
      yield (format_error_message w "Rate Limited"
               "Too many requests. Please wait a moment and try again.")
    else
      yield (format_error_message w "HuggingFace API Error" error_msg)
  else
    let error_msg := str_exn e in
    report_if_held "error" (Some error_msg) proxy_api_key ;;
    yield (format_error_message w "Unexpected Error"
             ("An unexpected error occurred: " ++ error_msg)).

Definition chat_respond (w : World) (message : string)
    (history : list Message) (system_message model_name : string)
    (max_tokens : Z) (temperature top_p : Q) : Gen string unit :=
  emit EvValidateKey ;;
  let '(is_valid, error_msg) := validate_proxy_key w in
  if negb is_valid then
    yield error_msg
  else
    let proxy_api_key := getenv_PROXY_KEY w in
    set_token_id None ;;
    try_except
      (chat_respond_try w message history system_message model_name
                        max_tokens temperature top_p proxy_api_key)
      (chat_respond_except w proxy_api_key).

(** ** handle_chat_submit *)

(** [for partial_response in response_generator: ... yield ...]: the events of
    the driven generator happen in place, each of its yields becomes one
    yield of the loop body. *)
Definition for_each_yield {X Y} (tr : list (event X)) (body : X -> Y)
  : list (event Y) :=
  map (fun ev =>
         match ev with
         | EvValidateKey => EvValidateKey
         | EvGetToken k => EvGetToken k
         | EvChatCompletion p k kw => EvChatCompletion p k kw
         | EvReport t s e k => EvReport t s e k
         | EvYield x => EvYield (body x)
         end) tr.

Definition handle_chat_submit (w : World) (message : string)
    (history : list Message) (system_msg model_name : string)
    (max_tokens : Z) (temperature top_p : Q)
  : list (event (list Message * string)) * result unit :=
  if negb (str_truthy (strip message)) then
    ([EvYield (history, "")], Returns tt)
  else
    let history :=
      (history ++ [{| role := "user"; content := message |}])%list in
    let response_generator :=
      chat_respond w message (removelast history) system_msg model_name
                   max_tokens temperature top_p in
    (for_each_yield (trace_of response_generator)
       (fun partial_response =>
          let assistant_response := partial_response in
          let current_history :=
            (history ++ [{| role := "assistant";
                            content := assistant_response |}])%list in
          (current_history, "")),
     result_of response_generator).

(** ** Observations on traces *)

Fixpoint yields {Y} (tr : list (event Y)) : list Y :=
  match tr with
  | [] => []
  | EvYield y :: tr' => y :: yields tr'
  | _ :: tr' => yields tr'
  end.

(** The reports made to the proxy: (token id, status, error message). *)
Fixpoint reports {Y} (tr : list (event Y))
  : list (string * string * option string) :=
  match tr with
  | [] => []
  | EvReport t s e _ :: tr' => (t, s, e) :: reports tr'
  | _ :: tr' => reports tr'
  end.

(** The message lists sent to the provider. *)
Fixpoint provider_calls {Y} (tr : list (event Y)) : list (list Message) :=
  match tr with
  | [] => []
  | EvChatCompletion _ _ kw :: tr' => kw_messages kw :: provider_calls tr'
  | _ :: tr' => provider_calls tr'
  end.

(** What there is of a run [tr] when the consumer takes [n] items and then
    closes the generator.  [GeneratorExit] is raised at the yield where the
    generator is suspended; it is no [Exception], none of the handlers of
    [chat_respond] takes it and there is no [finally], so the run is over
    with that yield.  A generator closed before its first item runs
    nothing; one that has fewer than [n] yields runs to its end. *)
Fixpoint closed_after {Y} (n : nat) (tr : list (event Y)) : list (event Y) :=
  match tr with
  | [] => []
  | ev :: tr' =>
      match n with
      | O => []
      | S n' =>
          match ev with
          | EvYield _ => ev :: closed_after n' tr'
          | _ => ev :: closed_after n tr'
          end
      end
  end.

(** ** Partial responses and the idle window *)

(** Whether a stream message carries content: it has a first choice whose
    [delta.content] is truthy. *)
Definition content_bearing (m : Chunk) : bool :=
  match choices m with
  | c :: _ => opt_truthy (delta_content c)
  | [] => false
  end.

(** The fragment a stream message contributes: the content of its first
    choice when there is one, the empty string otherwise. *)
Definition fragment (m : Chunk) : string :=
  match choices m with
  | c :: _ => match delta_content c with Some s => s | None => "" end
  | [] => ""
  end.

(** The fragments of a list of timed stream messages. *)
Definition fragments (items : list (Q * Chunk)) : list string :=
  map fragment (map snd items).

(** Concatenation of a list of fragments. *)
Definition concat_str (fs : list string) : string :=
  fold_right append "" fs.

(** The running concatenations of [fs] on top of [acc]. *)
Fixpoint partials (acc : string) (fs : list string) : list string :=
  match fs with
  | [] => []
  | f :: fs' => (acc ++ f) :: partials (acc ++ f) fs'
  end.

(** The value of [last_token_time] after a message has been handled. *)
Definition next_last (last : Q) (it : Q * Chunk) : Q :=
  if content_bearing (snd it) then fst it else last.

(** The value of [last_token_time] after [items] have been handled: the
    arrival of the last content-bearing one, [start] if there is none. *)
Definition last_content_time (start : Q) (items : list (Q * Chunk)) : Q :=
  fold_left next_last items start.

(** Every message of [items] arrives no later than [token_timeout] seconds
    after the previous content-bearing one (after [last] for the first). *)
Fixpoint within_idle_window (last : Q) (items : list (Q * Chunk)) : bool :=
  match items with
  | [] => true
  | it :: rest =>
      Qle_bool (fst it - last)%Q (inject_Z token_timeout)
      && within_idle_window (next_last last it) rest
  end.

(** The two timeout conditions raised inside the responder. *)
Definition idle_timeout_error : exn :=
  BuiltinTimeoutError "No response received for 30 seconds during streaming".

Definition open_timeout_error : exn :=
  BuiltinTimeoutError "Chat request timed out after 120 seconds".

(** The inner handler turns what it takes into the wall-clock timeout. *)
Definition rewrap (w : World) (e : exn) : exn :=
  if is_FutureTimeoutError w e then open_timeout_error else e.

Definition ending_result (ending : option exn) : result unit :=
  match ending with
  | None => Returns tt
  | Some e => Raises e
  end.

(** The messages of the stream a submitted call gives in time; none when it
    raises or is late. *)
Definition delivered (future : PendingCall) : list (Q * Chunk) :=
  if Qle_bool (call_duration future) (inject_Z INFERENCE_TIMEOUT)
  then match call_result future with
       | Returns s => stream_items s
       | Raises _ => []
       end
  else [].

(** ** What a failure is turned into *)

(** The handler that takes an exception. *)
Inductive failure_kind : Type :=
| ConnectionFailure
| TimeoutFailure
| ProviderHTTPFailure
| UnexpectedFailure.

Definition classify (w : World) (e : exn) : failure_kind :=
  match e with
  | RequestsConnectionError _ => ConnectionFailure
  | BuiltinTimeoutError _ => TimeoutFailure
  | FuturesTimeoutError _ =>
      if futures_timeout_is_builtin w then TimeoutFailure else UnexpectedFailure
  | HfHubHTTPError _ _ => ProviderHTTPFailure
  | OtherException _ => UnexpectedFailure
  end.

(** The error message reported to the proxy for [e]. *)
Definition report_message (w : World) (e : exn) : string :=
  match classify w e with
  | ConnectionFailure => "Cannot connect to HF-Inferoxy server: " ++ str_exn e
  | TimeoutFailure => "Request timed out: " ++ str_exn e
  | ProviderHTTPFailure => str_exn e
  | UnexpectedFailure => str_exn e
  end.

(** Category and detail of the message for a provider HTTP error, from the
    text of the error. *)
Definition http_category (text : string) : string * string :=
  if str_in "401" text then
    ("Authentication Error",
     "Invalid or expired API token. The proxy will provide a new token on retry.")
  else if str_in "402" text then
    ("Quota Exceeded",
     "API quota exceeded. The proxy will try alternative providers.")
  else if str_in "429" text then
    ("Rate Limited", "Too many requests. Please wait a moment and try again.")
  else ("HuggingFace API Error", text).

(** Category and detail of the user-facing message for [e]. *)
Definition error_category (w : World) (e : exn) : string * string :=
  match classify w e with
  | ConnectionFailure =>
      ("Connection Error",
       "Unable to connect to the proxy server. Please check if it's running.")
  | TimeoutFailure =>
      ("Timeout Error",
       "The request took too long. The server may be overloaded. Please try again.")
  | ProviderHTTPFailure => http_category (str_exn e)
  | UnexpectedFailure =>
      ("Unexpected Error", "An unexpected error occurred: " ++ str_exn e)
  end.

(** The formatted error string yielded for [e]. *)
Definition user_message (w : World) (e : exn) : string :=
  format_error_message w (fst (error_category w e)) (snd (error_category w e)).

(** The formatter shows the category it is given. *)
Definition shows_category (w : World) : Prop :=
  forall error_type error_message,
    str_in error_type (format_error_message w error_type error_message) = true.

(** The events of a handler entered with [token_id = st]. *)
Definition handler_events (w : World) (key st : option string) (e : exn)
  : list (event string) :=
  ((if opt_truthy st
    then [EvReport (match st with Some t => t | None => "" end)
                   "error" (Some (report_message w e)) key]
    else []) ++ [EvYield (user_message w e)])%list.

(** What follows the streamed partial responses: the success report when the
    [try] block ends normally, the handler's report and message when it
    raises [e]; a report is made only when [token_id] is truthy. *)
Definition closing_events (w : World) (key st : option string)
    (r : result unit) : list (event string) :=
  match r with
  | Returns _ =>
      if opt_truthy st
      then [EvReport (match st with Some t => t | None => "" end)
                     "success" None key]
      else []
  | Raises e => handler_events w key st e
  end.

(** ** The phases of a run *)

Section Phases.

Variable w : World.
Variables (message : string) (history : list Message).
Variables (system_message model_name : string).
Variables (max_tokens : Z) (temperature top_p : Q).

(** The call submitted to the executor for a token and a parsed model. *)
Definition provider_call (token model : string) (provider : option string)
  : PendingCall :=
  chat_completion w (provider_or_auto provider) token
    (chat_completion_kwargs model
       (prepare_messages system_message history message)
       max_tokens temperature top_p).

(** The event of that call. *)
Definition provider_call_event (token model : string)
    (provider : option string) : event string :=
  EvChatCompletion (provider_or_auto provider) token
    (chat_completion_kwargs model
       (prepare_messages system_message history message)
       max_tokens temperature top_p).

(** The value of [token_id] once the [try] block is left. *)
Definition acquired_id : option string :=
  match get_proxy_token w (getenv_PROXY_KEY w) with
  | Returns (_, t) => Some t
  | Raises _ => None
  end.

(** The call the responder submits, if it gets that far. *)
Definition submitted_call : option PendingCall :=
  match get_proxy_token w (getenv_PROXY_KEY w) with
  | Returns (token, _) =>
      match parse_model_and_provider w model_name with
      | Returns (model, provider) => Some (provider_call token model provider)
      | Raises _ => None
      end
  | Raises _ => None
  end.

(** The stream messages the responder can get to see. *)
Definition received : list (Q * Chunk) :=
  match submitted_call with
  | Some future => delivered future
  | None => []
  end.

(** The proxy key is valid, the proxy hands out a token with identifier
    [tid], the model name parses, and [future] is the provider call that the
    responder submits. *)
Definition call_made (tid : string) (future : PendingCall) : Prop :=
  fst (validate_proxy_key w) = true /\
  exists token model provider,
    get_proxy_token w (getenv_PROXY_KEY w) = Returns (token, tid) /\
    parse_model_and_provider w model_name = Returns (model, provider) /\
    future = provider_call token model provider.

(** The proxy key is valid and the [try] block ends by raising [e]. *)
Definition fails_with (e : exn) : Prop :=
  fst (validate_proxy_key w) = true /\
  result_of (chat_respond_try w message history system_message model_name
               max_tokens temperature top_p (getenv_PROXY_KEY w)) = Raises e.

(** The proxy key is valid and the [try] block ends normally. *)
Definition completes : Prop :=
  fst (validate_proxy_key w) = true /\
  result_of (chat_respond_try w message history system_message model_name
               max_tokens temperature top_p (getenv_PROXY_KEY w)) = Returns tt.

End Phases.

(** The call gives, within [INFERENCE_TIMEOUT], a stream that delivers
    [items] and then ends as [ending]. *)
Definition gives_stream (future : PendingCall) (items : list (Q * Chunk))
    (ending : option exn) : Prop :=
  (call_duration future <= inject_Z INFERENCE_TIMEOUT)%Q /\
  call_result future =
    Returns {| stream_items := items; stream_ending := ending |}.

(** One of the two timeouts strikes: the call does not end within
    [INFERENCE_TIMEOUT], or it gives a stream one message of which arrives
    more than [token_timeout] after the last content-bearing one before it. *)
Definition timed_out (w : World) (future : PendingCall) : Prop :=
  (inject_Z INFERENCE_TIMEOUT < call_duration future)%Q \/
  exists pre t m post ending,
    gives_stream future (pre ++ (t, m) :: post)%list ending /\
    (inject_Z token_timeout
     < t - last_content_time (stream_start_time w) pre)%Q.

(** ** Histories *)

Definition user_turn (message : string) : Message :=
  {| role := "user"; content := message |}.

Definition assistant_turn (text : string) : Message :=
  {| role := "assistant"; content := text |}.

Definition system_turn (text : string) : Message :=
  {| role := "system"; content := text |}.

Definition is_assistant (m : Message) : bool := (role m =? "assistant")%string.

(** The number of assistant turns of a history. *)
Definition assistant_turns (h : list Message) : nat :=
  List.length (filter is_assistant h).

(** ** Sample worlds *)

(** A stream message carrying the fragment [s]. *)
Definition chunk_of (s : string) : Chunk :=
  {| choices := [{| delta_content := Some s |}] |}.

(** A stream message with no choice at all. *)
Definition chunk_no_choice : Chunk := {| choices := [] |}.

(** A formatter that shows the category, then the detail. *)
Definition sample_format (error_type error_message : string) : string :=
  "[" ++ error_type ++ "] " ++ error_message.

(** A world with a valid proxy key where the proxy hands out
    [("hf_tok", token_id)], the model name is used as it is and the provider
    call behaves as [pending]. *)
Definition sample_world (token_id : string) (pending : PendingCall) : World :=
  {| validate_proxy_key := (true, "");
     getenv_PROXY_KEY := Some "key";
     get_proxy_token := fun _ => Returns ("hf_tok", token_id);
     parse_model_and_provider := fun m => Returns (m, None);
     chat_completion := fun _ _ _ => pending;
     stream_start_time := 0%Q;
     format_error_message := sample_format;
     futures_timeout_is_builtin := true |}.

(** A call answered after one second with a stream. *)
Definition answered (items : list (Q * Chunk)) (ending : option exn)
  : PendingCall :=
  {| call_duration := 1%Q;
     call_result := Returns {| stream_items := items;
                               stream_ending := ending |} |}.

(** The stream of the fragments "Hi", " there", each one second after the
    previous one. *)
Definition hi_there_items : list (Q * Chunk) :=
  [(1%Q, chunk_of "Hi"); (2%Q, chunk_of " there")].

(** A stream whose second message comes 39 seconds after the first. *)
Definition stalled_items : list (Q * Chunk) :=
  [(1%Q, chunk_of "Hi"); (40%Q, chunk_of " there")].

(** A provider call that ends after 130 seconds. *)
Definition late_call : PendingCall :=
  {| call_duration := 130%Q;
     call_result := Returns {| stream_items := []; stream_ending := None |} |}.

(** A provider call that raises [e] after one second. *)
Definition raising_call (e : exn) : PendingCall :=
  {| call_duration := 1%Q; call_result := Raises e |}.

(** A history of one exchange. *)
Definition one_exchange : list Message :=
  [user_turn "hi"; assistant_turn "Hello!"].

(** A world whose proxy cannot be reached. *)
Definition unreachable_proxy : World :=
  {| validate_proxy_key := (true, "");
     getenv_PROXY_KEY := Some "key";
     get_proxy_token :=
       fun _ => Raises (RequestsConnectionError "connection refused");
     parse_model_and_provider := fun m => Returns (m, None);
     chat_completion := fun _ _ _ => answered hi_there_items None;
     stream_start_time := 0%Q;
     format_error_message := sample_format;
     futures_timeout_is_builtin := true |}.

(** ** Further observations on traces *)

(** The number of token acquisitions. *)
Fixpoint acquisitions {Y} (tr : list (event Y)) : nat :=
  match tr with
  | [] => 0
  | EvGetToken _ :: tr' => S (acquisitions tr')
  | _ :: tr' => acquisitions tr'
  end.

(** The API keys with which the proxy is addressed, for an acquisition or
    for a report. *)
Fixpoint proxy_keys {Y} (tr : list (event Y)) : list (option string) :=
  match tr with
  | [] => []
  | EvGetToken k :: tr' => k :: proxy_keys tr'
  | EvReport _ _ _ k :: tr' => k :: proxy_keys tr'
  | _ :: tr' => proxy_keys tr'
  end.

(** The provider calls in full: provider, API key and keyword arguments. *)
Fixpoint provider_requests {Y} (tr : list (event Y))
  : list (string * string * ChatCompletionKwargs) :=
  match tr with
  | [] => []
  | EvChatCompletion p k kw :: tr' => (p, k, kw) :: provider_requests tr'
  | _ :: tr' => provider_requests tr'
  end.

(** The events of a trace that are not yields. *)
Fixpoint interactions {Y} (tr : list (event Y)) : list (event unit) :=
  match tr with
  | [] => []
  | EvValidateKey :: tr' => EvValidateKey :: interactions tr'
  | EvGetToken k :: tr' => EvGetToken k :: interactions tr'
  | EvChatCompletion p k kw :: tr' => EvChatCompletion p k kw :: interactions tr'
  | EvReport t s e k :: tr' => EvReport t s e k :: interactions tr'
  | EvYield _ :: tr' => interactions tr'
  end.

(** No message of [items] is content-bearing. *)
Definition contentless (items : list (Q * Chunk)) : Prop :=
  forall it, In it items -> content_bearing (snd it) = false.

(** ** Further sample worlds *)

(** A world whose proxy key is missing. *)
Definition invalid_key_world : World :=
  {| validate_proxy_key := (false, "PROXY_KEY is not set");
     getenv_PROXY_KEY := None;
     get_proxy_token := fun _ => Returns ("hf_tok", "t1");
     parse_model_and_provider := fun m => Returns (m, None);
     chat_completion :=
       fun _ _ _ =>
         {| call_duration := 1%Q;
            call_result := Returns {| stream_items := [];
                                      stream_ending := None |} |};
     stream_start_time := 0%Q;
     format_error_message := fun ty msg => "[" ++ ty ++ "] " ++ msg;
     futures_timeout_is_builtin := true |}.

(** A world whose proxy answers the acquisition by raising [e]. *)
Definition failing_proxy (e : exn) : World :=
  {| validate_proxy_key := (true, "");
     getenv_PROXY_KEY := Some "key";
     get_proxy_token := fun _ => Raises e;
     parse_model_and_provider := fun m => Returns (m, None);
     chat_completion :=
       fun _ _ _ =>
         {| call_duration := 1%Q;
            call_result := Returns {| stream_items := [];
                                      stream_ending := None |} |};
     stream_start_time := 0%Q;
     format_error_message := fun ty msg => "[" ++ ty ++ "] " ++ msg;
     futures_timeout_is_builtin := true |}.

(** A world where the model name cannot be parsed. *)
Definition unparsable_model_world : World :=
  {| validate_proxy_key := (true, "");
     getenv_PROXY_KEY := Some "key";
     get_proxy_token := fun _ => Returns ("hf_tok", "t1");
     parse_model_and_provider := fun _ => Raises (OtherException "bad model");
     chat_completion :=
       fun _ _ _ =>
         {| call_duration := 1%Q;
            call_result := Returns {| stream_items := [];
                                      stream_ending := None |} |};
     stream_start_time := 0%Q;
     format_error_message := fun ty msg => "[" ++ ty ++ "] " ++ msg;
     futures_timeout_is_builtin := true |}.

(** A world like the sample one on a Python where
    [concurrent.futures.TimeoutError] is a class of its own, and where the
    model name carries the provider [p]. *)
Definition older_python_world (p : string) (pending : PendingCall) : World :=
  {| validate_proxy_key := (true, "");
     getenv_PROXY_KEY := Some "key";
     get_proxy_token := fun _ => Returns ("hf_tok", "t1");
     parse_model_and_provider := fun m => Returns (m, Some p);
     chat_completion := fun _ _ _ => pending;
     stream_start_time := 0%Q;
     format_error_message := fun ty msg => "[" ++ ty ++ "] " ++ msg;
     futures_timeout_is_builtin := false |}.

(** A message that carries a role but no content. *)
Definition chunk_no_content : Chunk :=
  {| choices := [{| delta_content := None |}] |}.

(** Messages without content every ten seconds. *)
Definition keepalive_items : list (Q * Chunk) :=
  [(10%Q, chunk_no_content); (20%Q, chunk_no_choice);
   (30%Q, chunk_no_content); (40%Q, chunk_no_content)].

(** ** Facts on strings *)

Lemma str_append_assoc (a b c : string) : (a ++ b) ++ c = a ++ (b ++ c).
Proof. induction a as [|x a IH]; simpl; [reflexivity | now rewrite IH]. Qed.

Lemma str_append_nil_r (a : string) : a ++ "" = a.
Proof. induction a as [|x a IH]; simpl; [reflexivity | now rewrite IH]. Qed.

Lemma prefix_append (a s : string) : prefix a (a ++ s) = true.
Proof.
  induction a as [|x a IH]; simpl.
  - now destruct s.
  - destruct (ascii_dec x x) as [_|ne]; [exact IH | now elim ne].
Qed.

Lemma prefix_split (a b : string) :
  prefix a b = true -> exists s, b = a ++ s.
Proof.
  revert b; induction a as [|x a IH]; intros b H.
  - now exists b.
  - destruct b as [|y b]; simpl in H; [discriminate|].
    destruct (ascii_dec x y) as [->|_]; [|discriminate].
    destruct (IH b H) as [s ->]. now exists s.
Qed.

Lemma str_in_prefix (a b : string) : prefix a b = true -> str_in a b = true.
Proof. intros H. destruct b; cbn [str_in]; now rewrite H. Qed.

Lemma str_in_intro (a p s : string) : str_in a (p ++ a ++ s) = true.
Proof.
  induction p as [|x p IH].
  - change ("" ++ a ++ s) with (a ++ s). apply str_in_prefix, prefix_append.
  - simpl. rewrite IH. apply orb_true_r.
Qed.

Lemma str_in_split (a b : string) :
  str_in a b = true -> exists p s, b = p ++ a ++ s.
Proof.
  induction b as [|y b IH]; cbn [str_in]; intros H.
  - rewrite orb_false_r in H. destruct (prefix_split _ _ H) as [s ->].
    now exists "", s.
  - apply orb_true_iff in H as [H|H].
    + destruct (prefix_split _ _ H) as [s E]. exists "", s. exact E.
    + destruct (IH H) as (p & s & ->). now exists (String y p), s.
Qed.

(** Containment is transitive: what contains the category contains each of
    its words. *)
Lemma str_in_trans (a b c : string) :
  str_in a b = true -> str_in b c = true -> str_in a c = true.
Proof.
  intros Hab Hbc.
  destruct (str_in_split _ _ Hab) as (p & s & ->).
  destruct (str_in_split _ _ Hbc) as (p' & s' & ->).
  replace (p' ++ (p ++ a ++ s) ++ s') with ((p' ++ p) ++ a ++ (s ++ s')).
  - apply str_in_intro.
  - now rewrite !str_append_assoc.
Qed.

(** ** Facts on the codec and on stripping *)

Lemma decode_utf8_unfold (s : string) :
  decode_utf8 s = decode_step decode_utf8 s.
Proof. destruct s; reflexivity. Qed.

Lemma continuation_byte (x : N) :
  (x < 64)%N -> continuation (ascii_of_N (128 + x)) = Some x.
Proof.
  intros H. unfold continuation. rewrite N_ascii_embedding by lia.
  destruct (N.leb_spec 128 (128 + x)); [|lia].
  destruct (N.ltb_spec (128 + x) 192); [|lia].
  cbn [andb]. f_equal. lia.
Qed.

Ltac lead_byte :=
  repeat match goal with
         | |- context [(?a <? ?b)%N] =>
             destruct (N.ltb_spec a b); try (exfalso; lia)
         end.

(** Quotient and remainders of a code point by the powers of 64, as
    variables tied to it by equations. *)
Lemma split_64 (cp : N) :
  exists q r, (cp / 64 = q /\ cp mod 64 = r /\ cp = 64 * q + r /\ r < 64)%N.
Proof.
  exists (cp / 64)%N, (cp mod 64)%N. repeat split.
  - apply N.Div0.div_mod.
  - now apply N.mod_lt.
Qed.

Lemma split_4096 (cp : N) :
  exists a b c,
    (cp / 4096 = a /\ (cp / 64) mod 64 = b /\ cp mod 64 = c /\
     cp = 4096 * a + 64 * b + c /\ b < 64 /\ c < 64)%N.
Proof.
  destruct (split_64 cp) as (q & c & Eq & Ec & E & Hc).
  destruct (split_64 q) as (a & b & Ea & Eb & E' & Hb).
  exists a, b, c. rewrite Eq, Eb, Ec.
  replace (cp / 4096)%N with (cp / 64 / 64)%N
    by (rewrite N.Div0.div_div; reflexivity).
  rewrite Eq, Ea. repeat split; try assumption. lia.
Qed.

Lemma split_262144 (cp : N) :
  exists a b c d,
    (cp / 262144 = a /\ (cp / 4096) mod 64 = b /\ (cp / 64) mod 64 = c /\
     cp mod 64 = d /\
     cp = 262144 * a + 4096 * b + 64 * c + d /\ b < 64 /\ c < 64 /\ d < 64)%N.
Proof.
  destruct (split_4096 cp) as (q & c & d & Eq & Ec & Ed & E & Hc & Hd).
  destruct (split_64 q) as (a & b & Ea & Eb & E' & Hb).
  exists a, b, c, d. rewrite Eq, Eb, Ec, Ed.
  replace (cp / 262144)%N with (cp / 4096 / 64)%N
    by (rewrite N.Div0.div_div; reflexivity).
  rewrite Eq, Ea. repeat split; try assumption. lia.
Qed.

Lemma decode_utf8_char (cp : N) (s : string) :
  (cp < 1114112)%N -> decode_utf8 (utf8 cp ++ s) = cp :: decode_utf8 s.
Proof.
  intros Hcp. unfold utf8.
  destruct (N.ltb_spec cp 128) as [H1|H1];
    [|destruct (N.ltb_spec cp 2048) as [H2|H2];
      [|destruct (N.ltb_spec cp 65536) as [H3|H3]]];
    cbn [append]; rewrite decode_utf8_unfold; unfold decode_step.
  - rewrite N_ascii_embedding by lia. cbv zeta.
    destruct (N.ltb_spec cp 128); [reflexivity | lia].
  - destruct (split_64 cp) as (q & r & -> & -> & E & Hr).
    rewrite N_ascii_embedding by lia. cbv zeta.
    rewrite continuation_byte by exact Hr.
    lead_byte. f_equal. lia.
  - destruct (split_4096 cp) as (a & b & c & -> & -> & -> & E & Hb & Hc).
    rewrite N_ascii_embedding by lia. cbv zeta.
    rewrite !continuation_byte by assumption.
    lead_byte. f_equal. lia.
  - destruct (split_262144 cp)
      as (a & b & c & d & -> & -> & -> & -> & E & Hb & Hc & Hd).
    rewrite N_ascii_embedding by lia. cbv zeta.
    rewrite !continuation_byte by assumption.
    lead_byte. f_equal. lia.
Qed.

Lemma isspace_cases (cp : N) :
  isspace cp = true ->
  In cp [9; 10; 11; 12; 13; 28; 29; 30; 31; 32; 133; 160; 5760;
         8192; 8193; 8194; 8195; 8196; 8197; 8198; 8199; 8200; 8201; 8202;
         8232; 8233; 8239; 8287; 12288]%N.
Proof.
  unfold isspace. rewrite !orb_true_iff, !andb_true_iff, !N.leb_le, !N.eqb_eq.
  cbn [In]. lia.
Qed.

Lemma isspace_valid (cp : N) : isspace cp = true -> (cp < 1114112)%N.
Proof.
  unfold isspace. rewrite !orb_true_iff, !andb_true_iff, !N.leb_le, !N.eqb_eq.
  lia.
Qed.

Lemma decode_encode (cps : list N) :
  Forall (fun cp => cp < 1114112)%N cps ->
  decode_utf8 (encode_utf8 cps) = cps.
Proof.
  induction 1 as [|cp cps Hcp _ IH]; [reflexivity|].
  cbn [encode_utf8 fold_right]. fold (encode_utf8 cps).
  now rewrite decode_utf8_char, IH.
Qed.

Lemma lstrip_nil_iff (l : list N) : lstrip l = [] <-> forallb isspace l = true.
Proof.
  induction l as [|c l IH]; cbn; [tauto|].
  destruct (isspace c); cbn; [exact IH|]. split; discriminate.
Qed.

Lemma lstrip_forallb (l : list N) :
  forallb isspace (lstrip l) = forallb isspace l.
Proof.
  induction l as [|c l IH]; cbn; [reflexivity|].
  destruct (isspace c) eqn:E; cbn; [exact IH | now rewrite E].
Qed.

Lemma forallb_rev {A} (f : A -> bool) (l : list A) :
  forallb f (rev l) = forallb f l.
Proof.
  induction l as [|c l IH]; [reflexivity|].
  cbn [rev]. rewrite forallb_app, IH. cbn. now rewrite andb_true_r, andb_comm.
Qed.

Lemma strip_cps_nil_iff (l : list N) :
  rstrip (lstrip l) = [] <-> forallb isspace l = true.
Proof.
  unfold rstrip. split.
  - intros H. apply (f_equal (@rev N)) in H. rewrite rev_involutive in H.
    cbn in H. apply lstrip_nil_iff in H.
    now rewrite forallb_rev, lstrip_forallb in H.
  - intros H. apply lstrip_nil_iff in H. now rewrite H.
Qed.

Lemma utf8_truthy (cp : N) (s : string) : utf8 cp ++ s <> "".
Proof.
  unfold utf8.
  destruct (cp <? 128)%N; [discriminate|].
  destruct (cp <? 2048)%N; [discriminate|].
  destruct (cp <? 65536)%N; discriminate.
Qed.

Lemma encode_nil_iff (l : list N) : encode_utf8 l = "" <-> l = [].
Proof.
  destruct l as [|c l]; [tauto|]. split; [|discriminate].
  intros H. now apply utf8_truthy in H.
Qed.

Lemma strip_blank_iff (cps : list N) :
  Forall (fun cp => cp < 1114112)%N cps ->
  strip (encode_utf8 cps) = "" <-> forallb isspace cps = true.
Proof.
  intros H. unfold strip. rewrite (decode_encode _ H), encode_nil_iff.
  apply strip_cps_nil_iff.
Qed.

(** Stripping leaves nothing of a message made of white space only. *)
Lemma strip_of_white_space (cps : list N) :
  forallb isspace cps = true -> strip (encode_utf8 cps) = "".
Proof.
  intros H. apply strip_blank_iff; [|exact H].
  apply Forall_forall. intros cp Hin. apply isspace_valid.
  rewrite forallb_forall in H. now apply H.
Qed.

(** ** Facts on partial responses *)

Lemma partials_length (acc : string) (fs : list string) :
  List.length (partials acc fs) = List.length fs.
Proof.
  revert acc; induction fs; simpl; intros; [reflexivity | now rewrite IHfs].
Qed.

Lemma partials_nth (fs : list string) :
  forall acc i d, (i < List.length fs)%nat ->
    nth i (partials acc fs) d = acc ++ concat_str (firstn (S i) fs).
Proof.
  induction fs as [|f fs IH]; intros acc i d Hi; simpl in Hi; [lia|].
  destruct i as [|i].
  - simpl. now rewrite str_append_nil_r.
  - cbn [partials nth]. rewrite IH by lia.
    change (firstn (S (S i)) (f :: fs)) with (f :: firstn (S i) fs).
    cbn [concat_str fold_right]. now rewrite str_append_assoc.
Qed.

Lemma prefix_partials (fs : list string) :
  forall acc p, In p (partials acc fs) ->
    prefix p (acc ++ concat_str fs) = true.
Proof.
  induction fs as [|f fs IH]; intros acc p; simpl; [intros []|].
  intros [<-|Hp].
  - rewrite <- str_append_assoc. apply prefix_append.
  - rewrite <- str_append_assoc. now apply IH.
Qed.

Lemma last_partials (fs : list string) :
  forall acc d, fs <> [] -> last (partials acc fs) d = acc ++ concat_str fs.
Proof.
  induction fs as [|f fs IH]; intros acc d Hne; [congruence|].
  destruct fs as [|g fs].
  - simpl. now rewrite str_append_nil_r.
  - change (partials acc (f :: g :: fs))
      with ((acc ++ f) :: partials (acc ++ f) (g :: fs)).
    change (last ((acc ++ f) :: partials (acc ++ f) (g :: fs)) d)
      with (last (partials (acc ++ f) (g :: fs)) d).
    rewrite IH by discriminate.
    cbn [concat_str fold_right]. now rewrite str_append_assoc.
Qed.

(** Each partial response is a prefix of the last one. *)
Lemma partials_prefix_last (fs : list string) (acc p d : string) :
  In p (partials acc fs) -> prefix p (last (partials acc fs) d) = true.
Proof.
  intros Hp. destruct fs as [|f fs]; [destruct Hp|].
  rewrite last_partials by discriminate. now apply prefix_partials.
Qed.

(** ** The streaming loop *)

(** A message that is not content-bearing contributes the empty fragment. *)
Lemma fragment_contentless (m : Chunk) :
  content_bearing m = false -> fragment m = "".
Proof.
  unfold content_bearing, fragment. destruct (choices m) as [|c cs]; [reflexivity|].
  destruct (delta_content c) as [s|]; [|reflexivity].
  destruct s; [reflexivity | discriminate].
Qed.

Lemma stream_loop_cons (t : Q) (m : Chunk) (rest : list (Q * Chunk))
    (ending : option exn) (resp : string) (last : Q) (st : option string) :
  stream_loop ((t, m) :: rest) ending resp last st =
  if Qle_bool (t - last)%Q (inject_Z token_timeout)
  then match stream_loop rest ending (resp ++ fragment m)
                         (next_last last (t, m)) st with
       | (tr, st', r) => (EvYield (resp ++ fragment m) :: tr, st', r)
       end
  else ([], st, Raises idle_timeout_error).
Proof.
  cbn [stream_loop]. unfold next_last, content_bearing, fragment. cbn [fst snd].
  destruct (Qle_bool (t - last) (inject_Z token_timeout)); [|reflexivity].
  cbn [negb].
  destruct (choices m) as [|c cs].
  - reflexivity.
  - destruct (delta_content c) as [s|]; cbn [opt_truthy].
    + destruct s; reflexivity.
    + reflexivity.
Qed.

(** Whatever the stream does, the loop only yields, once per message it
    handles, the running concatenation of the fragments, and leaves
    [token_id] alone. *)
Lemma stream_loop_shape (items : list (Q * Chunk)) (ending : option exn) :
  forall resp last st,
  exists n r,
    stream_loop items ending resp last st =
    (map EvYield (partials resp (fragments (firstn n items))), st, r).
Proof.
  induction items as [|[t m] rest IH]; intros resp last st.
  - exists 0%nat. cbn. destruct ending; eexists; reflexivity.
  - rewrite stream_loop_cons.
    destruct (Qle_bool (t - last) (inject_Z token_timeout)).
    + destruct (IH (resp ++ fragment m) (next_last last (t, m)) st)
        as (n & r & ->).
      exists (S n), r. reflexivity.
    + exists 0%nat, (Raises idle_timeout_error). reflexivity.
Qed.

(** A stream whose messages all arrive in time is handled to its end. *)
Lemma stream_loop_in_time (items : list (Q * Chunk)) (ending : option exn) :
  forall resp last st,
    within_idle_window last items = true ->
    stream_loop items ending resp last st =
    (map EvYield (partials resp (fragments items)), st, ending_result ending).
Proof.
  induction items as [|[t m] rest IH]; intros resp last st H.
  - cbn. now destruct ending.
  - rewrite stream_loop_cons. cbn [within_idle_window fst] in H.
    apply andb_true_iff in H as [H1 H2]. rewrite H1.
    rewrite (IH _ _ st H2). reflexivity.
Qed.

(** A message that arrives too late stops the loop with the idle timeout,
    at that message or before it. *)
Lemma stream_loop_late (pre post : list (Q * Chunk)) (t : Q) (m : Chunk)
    (ending : option exn) :
  forall resp last st,
    (inject_Z token_timeout < t - last_content_time last pre)%Q ->
    exists n,
      stream_loop (pre ++ (t, m) :: post)%list ending resp last st =
      (map EvYield (partials resp (fragments (firstn n pre))), st,
       Raises idle_timeout_error).
Proof.
  induction pre as [|[t0 m0] pre IH]; intros resp last st Hlate.
  - exists 0%nat. cbn [app]. rewrite stream_loop_cons.
    cbn [last_content_time fold_left] in Hlate.
    destruct (Qle_bool (t - last) (inject_Z token_timeout)) eqn:E.
    + apply Qle_bool_iff in E. now apply Qlt_not_le in Hlate.
    + reflexivity.
  - cbn [app]. rewrite stream_loop_cons.
    destruct (Qle_bool (t0 - last) (inject_Z token_timeout)).
    + destruct (IH (resp ++ fragment m0) (next_last last (t0, m0)) st Hlate)
        as (n & ->).
      exists (S n). reflexivity.
    + exists 0%nat. reflexivity.
Qed.

(** ** The handlers *)

Lemma chat_respond_except_run (w : World) (key st : option string) (e : exn) :
  chat_respond_except w key e st = (handler_events w key st e, st, Returns tt).
Proof.
  unfold chat_respond_except, handler_events, user_message, error_category,
    report_message, classify, http_category, report_if_held, gbind,
    get_token_id, emit, yield, gret, is_ConnectionError, is_TimeoutError,
    is_HfHubHTTPError.
  destruct e as [t|t|t|c t|t]; cbn [str_exn];
    destruct (futures_timeout_is_builtin w);
    destruct (opt_truthy st); cbn [fst snd app];
    try reflexivity;
    (destruct (str_in "401" t); [reflexivity|];
     destruct (str_in "402" t); [reflexivity|];
     destruct (str_in "429" t); reflexivity).
Qed.

(** ** The guarded stream *)

Lemma stream_with_timeout_shape (w : World) (future : PendingCall)
    (resp : string) (st : option string) :
  exists n r,
    stream_with_timeout w future resp st =
    (map EvYield (partials resp (fragments (firstn n (delivered future)))),
     st, r).
Proof.
  unfold stream_with_timeout, try_except, gbind, future_result, delivered.
  destruct (Qle_bool (call_duration future) (inject_Z INFERENCE_TIMEOUT)).
  - unfold lift. destruct (call_result future) as [s|e].
    + destruct (stream_loop_shape (stream_items s) (stream_ending s) resp
                  (stream_start_time w) st) as (n & r & ->).
      exists n. cbn [app]. destruct r as [[]|e].
      * eexists; reflexivity.
      * exists (Raises (rewrap w e)). unfold rewrap, raise.
        destruct (is_FutureTimeoutError w e); now rewrite app_nil_r.
    + exists 0%nat, (Raises (rewrap w e)). unfold rewrap, raise.
      destruct (is_FutureTimeoutError w e); reflexivity.
  - exists 0%nat, (Raises open_timeout_error). reflexivity.
Qed.

(** The call does not end within [INFERENCE_TIMEOUT]. *)
Lemma stream_with_timeout_late_open (w : World) (future : PendingCall)
    (resp : string) (st : option string) :
  (inject_Z INFERENCE_TIMEOUT < call_duration future)%Q ->
  stream_with_timeout w future resp st = ([], st, Raises open_timeout_error).
Proof.
  intros H. unfold stream_with_timeout, try_except, gbind, future_result.
  destruct (Qle_bool (call_duration future) (inject_Z INFERENCE_TIMEOUT)) eqn:E.
  - apply Qle_bool_iff in E. now apply Qlt_not_le in H.
  - reflexivity.
Qed.

(** The call ends in time by raising [e]. *)
Lemma stream_with_timeout_raises (w : World) (future : PendingCall)
    (e : exn) (resp : string) (st : option string) :
  (call_duration future <= inject_Z INFERENCE_TIMEOUT)%Q ->
  call_result future = Raises e ->
  stream_with_timeout w future resp st = ([], st, Raises (rewrap w e)).
Proof.
  intros Hd Hr.
  unfold stream_with_timeout, try_except, gbind, future_result.
  apply Qle_bool_iff in Hd. rewrite Hd, Hr. unfold lift, rewrap, raise.
  destruct (is_FutureTimeoutError w e); reflexivity.
Qed.

(** The call gives a stream in time and every message arrives in time. *)
Lemma stream_with_timeout_in_time (w : World) (future : PendingCall)
    (items : list (Q * Chunk)) (resp : string) (st : option string) :
  gives_stream future items None ->
  within_idle_window (stream_start_time w) items = true ->
  stream_with_timeout w future resp st =
  (map EvYield (partials resp (fragments items)), st, Returns tt).
Proof.
  intros [Hd Hr] Hin.
  unfold stream_with_timeout, try_except, gbind, future_result.
  apply Qle_bool_iff in Hd. rewrite Hd, Hr. unfold lift.
  cbn [stream_items stream_ending].
  rewrite (stream_loop_in_time _ _ _ _ st Hin). reflexivity.
Qed.

(** The call gives a stream in time and one of its messages arrives late. *)
Lemma stream_with_timeout_idle (w : World) (future : PendingCall)
    (pre post : list (Q * Chunk)) (t : Q) (m : Chunk) (ending : option exn)
    (resp : string) (st : option string) :
  gives_stream future (pre ++ (t, m) :: post)%list ending ->
  (inject_Z token_timeout
   < t - last_content_time (stream_start_time w) pre)%Q ->
  exists n,
    stream_with_timeout w future resp st =
    (map EvYield (partials resp (fragments (firstn n pre))), st,
     Raises (if futures_timeout_is_builtin w
             then open_timeout_error else idle_timeout_error)).
Proof.
  intros [Hd Hr] Hlate.
  unfold stream_with_timeout, try_except, gbind, future_result.
  apply Qle_bool_iff in Hd. rewrite Hd, Hr. unfold lift.
  cbn [stream_items stream_ending].
  destruct (stream_loop_late pre post t m ending resp _ st Hlate) as (n & ->).
  exists n. unfold idle_timeout_error at 1. cbn [is_FutureTimeoutError].
  destruct (futures_timeout_is_builtin w); unfold raise; now rewrite app_nil_r.
Qed.

(** ** Observations commute with the structure of a trace *)

Lemma yields_app {Y} (a b : list (event Y)) :
  yields (a ++ b) = (yields a ++ yields b)%list.
Proof.
  induction a as [|ev a IH]; [reflexivity|].
  destruct ev; cbn [app yields]; now rewrite IH.
Qed.

Lemma yields_map_EvYield {Y} (ys : list Y) : yields (map EvYield ys) = ys.
Proof. induction ys; cbn; [reflexivity | now f_equal]. Qed.

Lemma reports_app {Y} (a b : list (event Y)) :
  reports (a ++ b) = (reports a ++ reports b)%list.
Proof.
  induction a as [|ev a IH]; [reflexivity|].
  destruct ev; cbn [app reports]; now rewrite IH.
Qed.

Lemma reports_map_EvYield {Y} (ys : list Y) :
  reports (map (@EvYield Y) ys) = [].
Proof. induction ys; cbn; [reflexivity | assumption]. Qed.

Lemma provider_calls_app {Y} (a b : list (event Y)) :
  provider_calls (a ++ b) = (provider_calls a ++ provider_calls b)%list.
Proof.
  induction a as [|ev a IH]; [reflexivity|].
  destruct ev; cbn [app provider_calls]; now rewrite IH.
Qed.

Lemma provider_calls_map_EvYield {Y} (ys : list Y) :
  provider_calls (map (@EvYield Y) ys) = [].
Proof. induction ys; cbn; [reflexivity | assumption]. Qed.

Lemma yields_for_each_yield {X Y} (tr : list (event X)) (body : X -> Y) :
  yields (for_each_yield tr body) = map body (yields tr).
Proof.
  induction tr as [|ev tr IH]; [reflexivity|].
  destruct ev; cbn; now rewrite <- ?IH.
Qed.

Lemma provider_calls_for_each_yield {X Y} (tr : list (event X))
    (body : X -> Y) :
  provider_calls (for_each_yield tr body) = provider_calls tr.
Proof.
  induction tr as [|ev tr IH]; [reflexivity|].
  destruct ev; cbn; now rewrite <- ?IH.
Qed.

Lemma yields_closing_events (w : World) (key st : option string)
    (r : result unit) :
  yields (closing_events w key st r) =
  match r with
  | Returns _ => []
  | Raises e => [user_message w e]
  end.
Proof.
  unfold closing_events, handler_events.
  destruct r; destruct (opt_truthy st); reflexivity.
Qed.

Lemma reports_closing_events (w : World) (key : option string) (tid : string)
    (r : result unit) :
  str_truthy tid = true ->
  reports (closing_events w key (Some tid) r) =
  match r with
  | Returns _ => [(tid, "success", None)]
  | Raises e => [(tid, "error", Some (report_message w e))]
  end.
Proof.
  intros H. unfold closing_events, handler_events. cbn [opt_truthy].
  rewrite H. now destruct r.
Qed.

Lemma provider_calls_closing_events (w : World) (key st : option string)
    (r : result unit) :
  provider_calls (closing_events w key st r) = [].
Proof.
  unfold closing_events, handler_events.
  destruct r; destruct (opt_truthy st); reflexivity.
Qed.

(** ** The shape of a run of the responder *)

Section Responder.

Variable w : World.
Variables (message : string) (history : list Message).
Variables (system_message model_name : string).
Variables (max_tokens : Z) (temperature top_p : Q).

Local Abbreviation key := (getenv_PROXY_KEY w).
Local Abbreviation responder :=
  (chat_respond w message history system_message model_name
                max_tokens temperature top_p).
Local Abbreviation try_block :=
  (chat_respond_try w message history system_message model_name
                    max_tokens temperature top_p (getenv_PROXY_KEY w)).
Local Abbreviation the_call :=
  (provider_call w message history system_message max_tokens temperature top_p).
Local Abbreviation the_call_event :=
  (provider_call_event message history system_message
                       max_tokens temperature top_p).
Local Abbreviation the_id := (acquired_id w).
Local Abbreviation the_received :=
  (received w message history system_message model_name
            max_tokens temperature top_p).

Lemma chat_respond_invalid :
  fst (validate_proxy_key w) = false ->
  run responder =
  ([EvValidateKey; EvYield (snd (validate_proxy_key w))], None, Returns tt).
Proof.
  unfold run, chat_respond. destruct (validate_proxy_key w) as [v m].
  cbn [fst snd]. intros ->. reflexivity.
Qed.

Lemma chat_respond_valid :
  fst (validate_proxy_key w) = true ->
  run responder =
  match run try_block with
  | (tr, st, r) =>
      (EvValidateKey ::
         (tr ++ match r with
                | Returns _ => []
                | Raises e => handler_events w key st e
                end)%list,
       st, Returns tt)
  end.
Proof.
  unfold run, chat_respond. destruct (validate_proxy_key w) as [v m].
  cbn [fst]. intros ->. cbn [negb].
  unfold gbind at 1. unfold emit at 1. unfold gbind at 1.
  unfold set_token_id at 1. unfold try_except. cbn [app].
  destruct (chat_respond_try _ _ _ _ _ _ _ _ _ None) as [[tr st] [[]|e]].
  - now rewrite app_nil_r.
  - now rewrite chat_respond_except_run.
Qed.

Lemma try_block_no_token (e : exn) :
  get_proxy_token w key = Raises e ->
  run try_block = ([EvGetToken key], None, Raises e).
Proof.
  intros H. unfold run, chat_respond_try, gbind, call. now rewrite H.
Qed.

Lemma try_block_no_model (token tid : string) (e : exn) :
  get_proxy_token w key = Returns (token, tid) ->
  parse_model_and_provider w model_name = Raises e ->
  run try_block = ([EvGetToken key], Some tid, Raises e).
Proof.
  intros H1 H2. unfold run, chat_respond_try, gbind, call, set_token_id, lift.
  now rewrite H1, H2.
Qed.

Lemma try_block_called (token tid model : string) (provider : option string) :
  get_proxy_token w key = Returns (token, tid) ->
  parse_model_and_provider w model_name = Returns (model, provider) ->
  run try_block =
  match stream_with_timeout w (the_call token model provider) ""
                            (Some tid) with
  | (tr, st, r) =>
      (EvGetToken key :: the_call_event token model provider ::
         (tr ++ match r with
                | Returns _ => closing_events w key st r
                | Raises _ => []
                end)%list,
       st, r)
  end.
Proof.
  intros H1 H2.
  unfold run, chat_respond_try, provider_call, provider_call_event.
  unfold gbind at 1. unfold call at 1. rewrite H1.
  unfold gbind at 1. unfold set_token_id at 1.
  unfold gbind at 1. unfold lift at 1. rewrite H2.
  unfold gbind at 1. unfold emit at 1.
  unfold gbind at 1.
  destruct (stream_with_timeout _ _ _ (Some tid)) as [[tr st] [[]|e]].
  - unfold report_if_held, gbind, get_token_id, closing_events.
    destruct (opt_truthy st); reflexivity.
  - cbn [app]. now rewrite app_nil_r.
Qed.

(** Every run of the [try] block: calls to the proxy and the provider, then
    the partial responses for the stream messages handled, then the success
    report if it ends normally. *)
Lemma try_block_shape :
  exists pre n r,
    yields pre = [] /\ reports pre = [] /\
    (forall msgs, In msgs (provider_calls pre) ->
       msgs = prepare_messages system_message history message) /\
    run try_block =
    ((pre ++ map EvYield (partials "" (fragments (firstn n the_received)))
          ++ match r with
             | Returns _ => closing_events w key the_id r
             | Raises _ => []
             end)%list,
     the_id, r).
Proof.
  unfold acquired_id, received, submitted_call.
  destruct (get_proxy_token w key) as [[token tid]|e] eqn:H1.
  - destruct (parse_model_and_provider w model_name) as [[model provider]|e]
      eqn:H2.
    + rewrite (try_block_called _ _ _ _ H1 H2).
      destruct (stream_with_timeout_shape w (the_call token model provider)
                  "" (Some tid)) as (n & r & ->).
      exists [EvGetToken key; the_call_event token model provider], n, r.
      repeat split; try reflexivity.
      intros msgs [<-|[]]. reflexivity.
    + rewrite (try_block_no_model _ _ _ H1 H2).
      exists [EvGetToken key], 0%nat, (Raises e).
      repeat split; try reflexivity. intros msgs [].
  - rewrite (try_block_no_token _ H1).
    exists [EvGetToken key], 0%nat, (Raises e).
    repeat split; try reflexivity. intros msgs [].
Qed.

(** Every run of the responder with a valid proxy key. *)
Lemma responder_shape :
  fst (validate_proxy_key w) = true ->
  exists pre n,
    yields pre = [] /\ reports pre = [] /\
    (forall msgs, In msgs (provider_calls pre) ->
       msgs = prepare_messages system_message history message) /\
    yields (trace_of try_block) =
      partials "" (fragments (firstn n the_received)) /\
    run responder =
    ((pre ++ map EvYield (partials "" (fragments (firstn n the_received)))
          ++ closing_events w key the_id (result_of try_block))%list,
     the_id, Returns tt).
Proof.
  intros Hv. rewrite (chat_respond_valid Hv).
  destruct try_block_shape as (pre & n & r & Hy & Hr & Hp & E).
  unfold trace_of, result_of. rewrite E. cbn [fst snd].
  exists (EvValidateKey :: pre), n.
  split; [exact Hy|]. split; [exact Hr|]. split; [exact Hp|]. split.
  - rewrite !yields_app, Hy, yields_map_EvYield.
    destruct r as [[]|e]; cbn [app].
    + now rewrite yields_closing_events, app_nil_r.
    + now rewrite app_nil_r.
  - destruct r as [[]|e]; cbn [app closing_events];
      now rewrite <- !app_assoc, ?app_nil_r.
Qed.

(** A run in which the provider call is submitted. *)
Lemma responder_after_call (tid : string) (future : PendingCall) :
  call_made w message history system_message model_name
            max_tokens temperature top_p tid future ->
  exists pre,
    yields pre = [] /\ reports pre = [] /\
    provider_calls pre = [prepare_messages system_message history message] /\
    forall tr r,
      stream_with_timeout w future "" (Some tid) = (tr, Some tid, r) ->
      result_of try_block = r /\
      run responder =
      ((pre ++ tr ++ closing_events w key (Some tid) r)%list,
       Some tid, Returns tt).
Proof.
  intros (Hv & token & model & provider & H1 & H2 & ->).
  exists [EvValidateKey; EvGetToken key; the_call_event token model provider].
  split; [reflexivity|]. split; [reflexivity|]. split; [reflexivity|].
  intros tr r E.
  rewrite (chat_respond_valid Hv). unfold result_of.
  rewrite (try_block_called _ _ _ _ H1 H2), E. cbn [fst snd]. split.
  - reflexivity.
  - destruct r as [[]|e]; cbn [app closing_events];
      now rewrite <- ?app_assoc, ?app_nil_r.
Qed.

(** The responder never lets an exception out. *)
Lemma responder_returns : result_of responder = Returns tt.
Proof.
  unfold result_of. destruct (fst (validate_proxy_key w)) eqn:Hv.
  - rewrite (chat_respond_valid Hv). now destruct (run try_block) as [[tr st] r].
  - now rewrite (chat_respond_invalid Hv).
Qed.

End Responder.

(** The history the merger hands to the responder is the one it was given. *)
Lemma removelast_user_turn (history : list Message) (m : Message) :
  removelast (history ++ [m])%list = history.
Proof. apply removelast_last. Qed.

(** ** Runs in which the provider call is submitted *)

Section AfterCall.

Variable w : World.
Variables (message : string) (history : list Message).
Variables (system_message model_name : string).
Variables (max_tokens : Z) (temperature top_p : Q).
Variables (tid : string) (future : PendingCall).

Hypothesis Hcall :
  call_made w message history system_message model_name
            max_tokens temperature top_p tid future.

Local Abbreviation key := (getenv_PROXY_KEY w).
Local Abbreviation responder :=
  (chat_respond w message history system_message model_name
                max_tokens temperature top_p).
Local Abbreviation try_block :=
  (chat_respond_try w message history system_message model_name
                    max_tokens temperature top_p (getenv_PROXY_KEY w)).

(** The stream is handled to its end: the partial responses, then the
    success report. *)
Lemma responder_run_in_time (items : list (Q * Chunk)) :
  gives_stream future items None ->
  within_idle_window (stream_start_time w) items = true ->
  result_of try_block = Returns tt /\
  exists pre,
    yields pre = [] /\ reports pre = [] /\
    trace_of responder =
    (pre ++ map EvYield (partials "" (fragments items))
         ++ closing_events w key (Some tid) (Returns tt))%list.
Proof.
  intros Hs Hin.
  destruct (responder_after_call _ _ _ _ _ _ _ _ _ _ Hcall)
    as (pre & Hy & Hr & _ & H).
  destruct (H _ _ (stream_with_timeout_in_time w future items "" (Some tid)
                     Hs Hin)) as [E1 E2].
  split; [exact E1|]. exists pre. unfold trace_of. rewrite E2. auto.
Qed.

(** A timeout strikes: some partial responses, then what the handler of the
    timeout does. *)
Lemma responder_run_timed_out :
  timed_out w future ->
  exists text fs pre,
    result_of try_block = Raises (BuiltinTimeoutError text) /\
    yields pre = [] /\ reports pre = [] /\
    trace_of responder =
    (pre ++ map EvYield (partials "" fs)
         ++ closing_events w key (Some tid)
              (Raises (BuiltinTimeoutError text)))%list.
Proof.
  intros Ht.
  destruct (responder_after_call _ _ _ _ _ _ _ _ _ _ Hcall)
    as (pre & Hy & Hr & _ & H).
  destruct Ht as [Hlate | (items & t & m & post & ending & Hs & Hlate)].
  - destruct (H _ _ (stream_with_timeout_late_open w future "" (Some tid)
                       Hlate)) as [E1 E2].
    eexists _, [], pre. unfold trace_of. rewrite E2. repeat split; eauto.
  - destruct (stream_with_timeout_idle w future items post t m ending ""
                (Some tid) Hs Hlate) as (n & E).
    destruct (H _ _ E) as [E1 E2].
    destruct (futures_timeout_is_builtin w);
      eexists _, (fragments (firstn n items)), pre;
      unfold trace_of; rewrite E2; repeat split; eauto.
Qed.

End AfterCall.

(** ** Failing and completing runs *)

Section Outcome.

Variable w : World.
Variables (message : string) (history : list Message).
Variables (system_message model_name : string).
Variables (max_tokens : Z) (temperature top_p : Q).

Local Abbreviation key := (getenv_PROXY_KEY w).
Local Abbreviation responder :=
  (chat_respond w message history system_message model_name
                max_tokens temperature top_p).
Local Abbreviation the_received :=
  (received w message history system_message model_name
            max_tokens temperature top_p).

(** A run with a valid proxy key completes or fails: there is no third way. *)
Lemma valid_run_completes_or_fails :
  fst (validate_proxy_key w) = true ->
  completes w message history system_message model_name
            max_tokens temperature top_p \/
  exists e, fails_with w message history system_message model_name
                       max_tokens temperature top_p e.
Proof.
  intros Hv. unfold completes, fails_with.
  destruct (result_of (chat_respond_try w message history system_message
                         model_name max_tokens temperature top_p key))
    as [[]|e]; [left | right; exists e]; auto.
Qed.

Lemma responder_trace_on_failure (e : exn) :
  fails_with w message history system_message model_name
             max_tokens temperature top_p e ->
  exists pre n,
    yields pre = [] /\ reports pre = [] /\
    trace_of responder =
    (pre ++ map EvYield (partials "" (fragments (firstn n the_received)))
         ++ handler_events w key (acquired_id w) e)%list.
Proof.
  intros [Hv He].
  destruct (responder_shape w message history system_message model_name
              max_tokens temperature top_p Hv)
    as (pre & n & Hy & Hr & _ & _ & E).
  exists pre, n. unfold trace_of. rewrite E, He. auto.
Qed.

Lemma responder_yields_on_failure (e : exn) :
  fails_with w message history system_message model_name
             max_tokens temperature top_p e ->
  exists n,
    yields (trace_of responder) =
    (partials "" (fragments (firstn n the_received)) ++ [user_message w e])%list.
Proof.
  intros Hf. destruct (responder_trace_on_failure e Hf) as (pre & n & Hy & _ & E).
  exists n. rewrite E, !yields_app, Hy, yields_map_EvYield.
  unfold handler_events. rewrite yields_app.
  destruct (opt_truthy (acquired_id w)); reflexivity.
Qed.

Lemma responder_yields_on_completion :
  completes w message history system_message model_name
            max_tokens temperature top_p ->
  exists n,
    yields (trace_of responder) =
    partials "" (fragments (firstn n the_received)).
Proof.
  intros [Hv Hc].
  destruct (responder_shape w message history system_message model_name
              max_tokens temperature top_p Hv)
    as (pre & n & Hy & _ & _ & _ & E).
  exists n. unfold trace_of. rewrite E, Hc. cbn [fst].
  rewrite !yields_app, Hy, yields_map_EvYield, yields_closing_events.
  cbn [app]. apply app_nil_r.
Qed.

(** The merger on a message that is not blank: the responder is driven on the
    history the merger was given. *)
Lemma handle_chat_submit_nonblank :
  str_truthy (strip message) = true ->
  handle_chat_submit w message history system_message model_name
                     max_tokens temperature top_p =
  (for_each_yield (trace_of responder)
     (fun p => ((history ++ [user_turn message]) ++ [assistant_turn p], ""))%list,
   result_of responder).
Proof.
  intros H. unfold handle_chat_submit. rewrite H. cbn [negb].
  now rewrite removelast_user_turn.
Qed.

End Outcome.

Lemma assistant_turns_app (a b : list Message) :
  assistant_turns (a ++ b) = (assistant_turns a + assistant_turns b)%nat.
Proof. unfold assistant_turns. now rewrite filter_app, length_app. Qed.

(** ** A generator closed by its consumer *)

(** What a closed generator did is the beginning of what it would have
    done. *)
Lemma closed_after_prefix {Y} (tr : list (event Y)) :
  forall n, exists rest, tr = (closed_after n tr ++ rest)%list.
Proof.
  induction tr as [|ev tr IH]; intros n; [now exists []|].
  destruct n as [|n]; [now exists (ev :: tr)|].
  destruct ev; cbn [closed_after];
    [destruct (IH (S n)) as [rest E] .. | destruct (IH n) as [rest E]];
    exists rest; cbn [app]; now rewrite <- E.
Qed.

Lemma closed_after_0 {Y} (tr : list (event Y)) : closed_after 0 tr = [].
Proof. now destruct tr. Qed.

Lemma closed_after_no_yield {Y} (pre tr : list (event Y)) (n : nat) :
  yields pre = [] ->
  closed_after (S n) (pre ++ tr) = (pre ++ closed_after (S n) tr)%list.
Proof.
  induction pre as [|ev pre IH]; intros H; [reflexivity|].
  destruct ev; cbn [yields] in H; try discriminate;
    cbn [app closed_after]; now rewrite IH.
Qed.

Lemma closed_after_yields {Y} (ps : list Y) (rest : list (event Y)) :
  forall n, (n <= List.length ps)%nat ->
    closed_after n (map EvYield ps ++ rest) = map EvYield (firstn n ps).
Proof.
  induction ps as [|p ps IH]; intros n Hn.
  - cbn in Hn. assert (n = 0%nat) as -> by lia. apply closed_after_0.
  - destruct n as [|n]; [reflexivity|].
    cbn [map app closed_after firstn]. rewrite IH; [reflexivity|].
    cbn in Hn. lia.
Qed.

Lemma reports_closed_after {Y} (tr : list (event Y)) (n : nat) :
  reports tr = [] -> reports (closed_after n tr) = [].
Proof.
  intros H. destruct (closed_after_prefix tr n) as [rest E].
  rewrite E, reports_app in H. now apply app_eq_nil in H.
Qed.

(** A responder closed at a partial response has made no report. *)
Lemma responder_closed_at_partial_response
    (w : World) (message : string) (history : list Message)
    (system_message model_name : string)
    (max_tokens : Z) (temperature top_p : Q) (n : nat) :
  (n <= List.length
          (yields (trace_of (chat_respond_try w message history system_message
                               model_name max_tokens temperature top_p
                               (getenv_PROXY_KEY w)))))%nat ->
  reports (closed_after n
             (trace_of (chat_respond w message history system_message
                          model_name max_tokens temperature top_p)))
  = [].
Proof.
  intros Hn. destruct (fst (validate_proxy_key w)) eqn:Hv.
  - destruct (responder_shape w message history system_message model_name
                max_tokens temperature top_p Hv)
      as (pre & k & Hy & Hr & _ & Ey & E).
    rewrite Ey in Hn. unfold trace_of. rewrite E. cbn [fst].
    destruct n as [|n]; [now rewrite closed_after_0|].
    rewrite (closed_after_no_yield _ _ _ Hy), (closed_after_yields _ _ _ Hn).
    now rewrite reports_app, Hr, reports_map_EvYield.
  - apply reports_closed_after. unfold trace_of.
    now rewrite (chat_respond_invalid _ _ _ _ _ _ _ _ Hv).
Qed.

(** * The claims *)

(** ** C1: partial responses *)

(** C1, as amended.  For a stream obtained within the wall-clock timeout
    whose messages all arrive within the idle window and which ends normally,
    the responder yields one partial response per stream message received,
    content-bearing or not: the i-th one is the concatenation of the
    fragments of the first i messages (a message without content contributes
    the empty fragment, so the accumulation is yielded again unchanged).  For
    the fragments "Hi", " there" the yields are "Hi", "Hi there". *)
Theorem responder_yields_accumulation_per_message
    (w : World) (message : string) (history : list Message)
    (system_message model_name : string)
    (max_tokens : Z) (temperature top_p : Q)
    (tid : string) (future : PendingCall) (items : list (Q * Chunk)) :
  call_made w message history system_message model_name
            max_tokens temperature top_p tid future ->
  gives_stream future items None ->
  within_idle_window (stream_start_time w) items = true ->
  let ys := yields (trace_of (chat_respond w message history system_message
                                model_name max_tokens temperature top_p)) in
  List.length ys = List.length items /\
  (forall i, (i < List.length items)%nat ->
     nth i ys "" = concat_str (firstn (S i) (fragments items))) /\
  (forall m, content_bearing m = false -> fragment m = "") /\
  (fragments items = ["Hi"; " there"] -> ys = ["Hi"; "Hi there"]).
Proof.
  intros Hc Hs Hin ys.
  assert (E : ys = partials "" (fragments items)).
  { destruct (responder_run_in_time _ _ _ _ _ _ _ _ _ _ Hc items Hs Hin)
      as (_ & pre & Hy & _ & Etr).
    unfold ys. rewrite Etr, !yields_app, Hy, yields_map_EvYield,
      yields_closing_events. cbn [app]. apply app_nil_r. }
  rewrite E. split; [|split; [|split]].
  - rewrite partials_length. unfold fragments. now rewrite !length_map.
  - intros i Hi. rewrite partials_nth; [reflexivity|].
    unfold fragments. now rewrite !length_map.
  - exact fragment_contentless.
  - intros ->. reflexivity.
Qed.

Lemma responder_yields_accumulation_per_message_witness :
  yields (trace_of (chat_respond (sample_world "t1" (answered hi_there_items None))
                      "hello" [] "sys" "m" 10%Z 1%Q 1%Q))
  = ["Hi"; "Hi there"].
Proof.
  apply (responder_yields_accumulation_per_message
           (sample_world "t1" (answered hi_there_items None))
           "hello" [] "sys" "m" 10%Z 1%Q 1%Q
           "t1" (answered hi_there_items None) hi_there_items).
  - split; [reflexivity|].
    exists "hf_tok", "m", None. repeat split; reflexivity.
  - split; [apply Qle_bool_iff|]; reflexivity.
  - reflexivity.
  - reflexivity.
Defined.

(** A stream message without content is answered with a yield of its own:
    two stream messages, one of them content-bearing, and two partial
    responses, the second one repeating the first. *)
Lemma contentless_message_is_yielded :
  yields (trace_of (chat_respond
                      (sample_world "t1"
                         (answered [(1%Q, chunk_of "Hi"); (2%Q, chunk_no_choice)]
                                   None))
                      "hello" [] "sys" "m" 10%Z 1%Q 1%Q))
  = ["Hi"; "Hi"]
  /\ List.length (filter (fun it => content_bearing (snd it))
                    [(1%Q, chunk_of "Hi"); (2%Q, chunk_no_choice)]) = 1%nat.
Proof. split; reflexivity. Qed.

(** ** C2: the two timeouts

    The claim also speaks of a provider call that never returns.  In the
    source the call runs on the worker of [ThreadPoolExecutor], and the
    block of [with ThreadPoolExecutor(max_workers=1) as executor] is left,
    also by an exception, through the executor's shutdown, which waits for
    the worker; [future.cancel()] does not stop a call that is running.  The
    [TimeoutError] raised after 120 seconds therefore reaches its handler
    only once the call has ended: with a call that never returns there is no
    report and no error string.  Every [PendingCall] of this development
    ends, so the claim is not a theorem here; the timeouts of calls that end
    are treated with the further properties, under "The two timeouts, for a
    call that ends". *)

(** ** C3: provider HTTP errors *)

(** C3, as amended.  When the [try] block ends with a provider HTTP error,
    the error string yielded last is chosen from the text of the error, not
    from the status code of the response: a text containing "401" gives
    "Authentication Error"; otherwise one containing "402" gives "Quota
    Exceeded"; otherwise one containing "429" gives "Rate Limited"; any other
    text gives "HuggingFace API Error" with the raw text.  With a formatter
    that shows its category, the three messages contain "Authentication",
    "Quota Exceeded" and "Rate Limited". *)
Theorem http_error_is_classified_by_its_text
    (w : World) (message : string) (history : list Message)
    (system_message model_name : string)
    (max_tokens : Z) (temperature top_p : Q)
    (status : Z) (text : string) :
  fails_with w message history system_message model_name
             max_tokens temperature top_p (HfHubHTTPError status text) ->
  let shown :=
    last (yields (trace_of (chat_respond w message history system_message
                              model_name max_tokens temperature top_p))) "" in
  (str_in "401" text = true ->
     shown = format_error_message w "Authentication Error"
               "Invalid or expired API token. The proxy will provide a new token on retry."
     /\ (shows_category w -> str_in "Authentication" shown = true)) /\
  (str_in "401" text = false -> str_in "402" text = true ->
     shown = format_error_message w "Quota Exceeded"
               "API quota exceeded. The proxy will try alternative providers."
     /\ (shows_category w -> str_in "Quota Exceeded" shown = true)) /\
  (str_in "401" text = false -> str_in "402" text = false ->
   str_in "429" text = true ->
     shown = format_error_message w "Rate Limited"
               "Too many requests. Please wait a moment and try again."
     /\ (shows_category w -> str_in "Rate Limited" shown = true)) /\
  (str_in "401" text = false -> str_in "402" text = false ->
   str_in "429" text = false ->
     shown = format_error_message w "HuggingFace API Error" text).
Proof.
  intros Hf shown.
  assert (E : shown = user_message w (HfHubHTTPError status text)).
  { unfold shown.
    destruct (responder_yields_on_failure _ _ _ _ _ _ _ _ _ Hf) as (n & ->).
    apply last_last. }
  rewrite E. unfold user_message, error_category, http_category.
  cbn [classify str_exn].
  repeat split.
  - now rewrite H.
  - intros Hs. rewrite H. cbn [fst snd].
    apply (str_in_trans _ "Authentication Error"); [reflexivity | apply Hs].
  - now rewrite H, H0.
  - intros Hs. rewrite H, H0. cbn [fst snd]. apply Hs.
  - now rewrite H, H0, H1.
  - intros Hs. rewrite H, H0, H1. cbn [fst snd]. apply Hs.
  - intros H401 H402 H429. now rewrite H401, H402, H429.
Qed.

Lemma http_error_is_classified_by_its_text_witness :
  last (yields (trace_of (chat_respond
                            (sample_world "t1"
                               (raising_call
                                  (HfHubHTTPError 429 "429 Too Many Requests")))
                            "hello" [] "sys" "m" 10%Z 1%Q 1%Q))) ""
  = "[Rate Limited] Too many requests. Please wait a moment and try again.".
Proof.
  apply (http_error_is_classified_by_its_text
           (sample_world "t1"
              (raising_call (HfHubHTTPError 429 "429 Too Many Requests")))
           "hello" [] "sys" "m" 10%Z 1%Q 1%Q 429%Z "429 Too Many Requests");
    try reflexivity.
  split; reflexivity.
Defined.

(** A "429 Too Many Requests" whose text quotes a request identifier with the
    digits 401 in it: the response's status is 429, the message shown is the
    one for an authentication failure and does not mention the rate limit. *)
Lemma status_429_shown_as_authentication_error :
  yields (trace_of (chat_respond
                      (sample_world "t1"
                         (raising_call
                            (HfHubHTTPError 429
                               "429 Client Error: Too Many Requests for url: https://router.huggingface.co/v1/chat/completions (Request ID: Root=1-6401b2c3)")))
                      "hello" [] "sys" "m" 10%Z 1%Q 1%Q))
  = ["[Authentication Error] Invalid or expired API token. The proxy will provide a new token on retry."]
  /\ str_in "Rate Limited"
       "[Authentication Error] Invalid or expired API token. The proxy will provide a new token on retry."
     = false.
Proof. split; reflexivity. Qed.

(** ** C4: what a failing run yields *)

(** C4, as amended.  The responder never raises.  With an invalid proxy key
    it yields the validation message and nothing else.  When the [try] block
    fails with [e], it yields exactly one formatted error string, the one for
    [e], as its last item, after the partial responses of the stream messages
    handled before the failure; the error string is the only item when no
    stream message was received. *)
Theorem failure_yields_one_final_error_string
    (w : World) (message : string) (history : list Message)
    (system_message model_name : string)
    (max_tokens : Z) (temperature top_p : Q) :
  let responder := chat_respond w message history system_message model_name
                                max_tokens temperature top_p in
  let received := received w message history system_message model_name
                           max_tokens temperature top_p in
  result_of responder = Returns tt /\
  (fst (validate_proxy_key w) = false ->
     yields (trace_of responder) = [snd (validate_proxy_key w)]) /\
  (forall e,
     fails_with w message history system_message model_name
                max_tokens temperature top_p e ->
     (exists n,
        yields (trace_of responder) =
        (partials "" (fragments (firstn n received))
           ++ [format_error_message w (fst (error_category w e))
                                      (snd (error_category w e))])%list) /\
     (received = [] ->
        yields (trace_of responder) =
        [format_error_message w (fst (error_category w e))
                                (snd (error_category w e))])).
Proof.
  intros responder rcv. split; [apply responder_returns|]. split.
  - intros Hv. unfold trace_of, responder.
    now rewrite (chat_respond_invalid _ _ _ _ _ _ _ _ Hv).
  - intros e Hf.
    destruct (responder_yields_on_failure _ _ _ _ _ _ _ _ _ Hf) as (n & E).
    split.
    + exists n. exact E.
    + intros Hr. unfold responder. rewrite E. fold rcv. rewrite Hr.
      now rewrite firstn_nil.
Qed.

Lemma failure_yields_one_final_error_string_witness :
  yields (trace_of (chat_respond
                      (sample_world "t1" (raising_call (OtherException "boom")))
                      "hello" [] "sys" "m" 10%Z 1%Q 1%Q))
  = ["[Unexpected Error] An unexpected error occurred: boom"].
Proof.
  destruct (failure_yields_one_final_error_string
              (sample_world "t1" (raising_call (OtherException "boom")))
              "hello" [] "sys" "m" 10%Z 1%Q 1%Q) as (_ & _ & H).
  apply (H (OtherException "boom")).
  - split; reflexivity.
  - reflexivity.
Defined.

(** A stream that delivers "Hi" and then breaks: the error string comes
    last, and it is not the only item yielded. *)
Lemma error_string_after_partial_response :
  yields (trace_of (chat_respond
                      (sample_world "t1"
                         (answered [(1%Q, chunk_of "Hi")]
                                   (Some (OtherException "boom"))))
                      "hello" [] "sys" "m" 10%Z 1%Q 1%Q))
  = ["Hi"; "[Unexpected Error] An unexpected error occurred: boom"].
Proof. reflexivity. Qed.

(** ** C5: reporting the token *)

(** C5, as amended.  In a run driven to its end, a token that was acquired
    and is held (its identifier is truthy) is reported exactly once: with
    status "success" when the [try] block ends normally, as it does for a
    stream obtained and read in time; with status "error" and the failure
    message when it fails, as it does on a timeout, and then the report is
    the last event before the error string is yielded.  A token whose
    identifier is not truthy is not reported, and with an invalid proxy key,
    or when the acquisition raises, no report is made either.  When the
    consumer closes the generator at a partial response, no report has been
    made and none follows. *)
Theorem held_token_is_reported_once
    (w : World) (message : string) (history : list Message)
    (system_message model_name : string)
    (max_tokens : Z) (temperature top_p : Q) :
  let tr := trace_of (chat_respond w message history system_message
                        model_name max_tokens temperature top_p) in
  let partial_responses :=
    yields (trace_of (chat_respond_try w message history system_message
                        model_name max_tokens temperature top_p
                        (getenv_PROXY_KEY w))) in
  (forall token tid,
     get_proxy_token w (getenv_PROXY_KEY w) = Returns (token, tid) ->
     str_truthy tid = true ->
     (completes w message history system_message model_name
                max_tokens temperature top_p ->
        reports tr = [(tid, "success", None)]) /\
     (forall e,
        fails_with w message history system_message model_name
                   max_tokens temperature top_p e ->
        reports tr = [(tid, "error", Some (report_message w e))] /\
        exists before,
          reports before = [] /\
          tr = (before ++ [EvReport tid "error" (Some (report_message w e))
                             (getenv_PROXY_KEY w);
                           EvYield (user_message w e)])%list) /\
     (forall future items,
        call_made w message history system_message model_name
                  max_tokens temperature top_p tid future ->
        gives_stream future items None ->
        within_idle_window (stream_start_time w) items = true ->
        reports tr = [(tid, "success", None)]) /\
     (forall future,
        call_made w message history system_message model_name
                  max_tokens temperature top_p tid future ->
        timed_out w future ->
        exists text,
          reports tr
          = [(tid, "error", Some ("Request timed out: " ++ text)%string)]) /\
     (forall future e,
        call_made w message history system_message model_name
                  max_tokens temperature top_p tid future ->
        (call_duration future <= inject_Z INFERENCE_TIMEOUT)%Q ->
        call_result future = Raises e ->
        reports tr = [(tid, "error", Some (report_message w (rewrap w e)))])) /\
  (forall token tid,
     get_proxy_token w (getenv_PROXY_KEY w) = Returns (token, tid) ->
     str_truthy tid = false ->
     reports tr = []) /\
  (fst (validate_proxy_key w) = false \/
   (exists e, get_proxy_token w (getenv_PROXY_KEY w) = Raises e) ->
   reports tr = []) /\
  (forall n, (n <= List.length partial_responses)%nat ->
     reports (closed_after n tr) = []).
Proof.
  intros tr partial_responses. split; [|split; [|split]].
  - intros token tid Hg Ht.
    assert (Hid : acquired_id w = Some tid) by (unfold acquired_id; now rewrite Hg).
    split; [|split; [|split; [|split]]].
    + intros [Hv Hc].
      destruct (responder_shape w message history system_message model_name
                  max_tokens temperature top_p Hv)
        as (pre & n & _ & Hr & _ & _ & E).
      unfold tr, trace_of. rewrite E, Hc, Hid. cbn [fst].
      rewrite !reports_app, Hr, reports_map_EvYield.
      now rewrite (reports_closing_events _ _ _ _ Ht).
    + intros e Hf.
      destruct (responder_trace_on_failure _ _ _ _ _ _ _ _ _ Hf)
        as (pre & n & _ & Hr & E).
      unfold tr. rewrite E, Hid. unfold handler_events. cbn [opt_truthy].
      rewrite Ht. split.
      * now rewrite !reports_app, Hr, reports_map_EvYield.
      * eexists. split; [|now rewrite app_assoc].
        now rewrite reports_app, Hr, reports_map_EvYield.
    + intros future items Hc Hs Hin.
      destruct (responder_run_in_time _ _ _ _ _ _ _ _ _ _ Hc items Hs Hin)
        as (_ & pre & _ & Hr & E).
      unfold tr. rewrite E, !reports_app, Hr, reports_map_EvYield.
      now rewrite (reports_closing_events _ _ _ _ Ht).
    + intros future Hc Hto.
      destruct (responder_run_timed_out _ _ _ _ _ _ _ _ _ _ Hc Hto)
        as (text & fs & pre & _ & _ & Hr & E).
      exists text. unfold tr. rewrite E, !reports_app, Hr, reports_map_EvYield.
      now rewrite (reports_closing_events _ _ _ _ Ht).
    + intros future e Hc Hd He.
      destruct (responder_after_call _ _ _ _ _ _ _ _ _ _ Hc)
        as (pre & _ & Hr & _ & H).
      destruct (H _ _ (stream_with_timeout_raises w future e "" (Some tid)
                         Hd He)) as [_ E].
      unfold tr, trace_of. rewrite E. cbn [fst app].
      now rewrite reports_app, Hr, (reports_closing_events _ _ _ _ Ht).
  - intros token tid Hg Ht.
    assert (Hid : acquired_id w = Some tid) by (unfold acquired_id; now rewrite Hg).
    unfold tr, trace_of. destruct (fst (validate_proxy_key w)) eqn:Hv.
    + destruct (responder_shape w message history system_message model_name
                  max_tokens temperature top_p Hv)
        as (pre & n & _ & Hr & _ & _ & E).
      rewrite E, Hid. cbn [fst].
      rewrite !reports_app, Hr, reports_map_EvYield.
      destruct (result_of _) as [[]|e];
        unfold closing_events, handler_events; cbn [opt_truthy];
        now rewrite Ht.
    + now rewrite (chat_respond_invalid _ _ _ _ _ _ _ _ Hv).
  - intros [Hv | [e He]].
    + unfold tr, trace_of.
      now rewrite (chat_respond_invalid _ _ _ _ _ _ _ _ Hv).
    + unfold tr, trace_of. destruct (fst (validate_proxy_key w)) eqn:Hv.
      * rewrite (chat_respond_valid _ _ _ _ _ _ _ _ Hv).
        rewrite (try_block_no_token _ _ _ _ _ _ _ _ _ He).
        unfold handler_events. reflexivity.
      * now rewrite (chat_respond_invalid _ _ _ _ _ _ _ _ Hv).
  - intros n Hn. now apply responder_closed_at_partial_response.
Qed.

Lemma held_token_is_reported_once_witness :
  reports (trace_of (chat_respond
                       (sample_world "t1" (answered hi_there_items None))
                       "hello" [] "sys" "m" 10%Z 1%Q 1%Q))
  = [("t1", "success", None)]
  /\ reports (trace_of (chat_respond
                          (sample_world "t1"
                             (raising_call (OtherException "boom")))
                          "hello" [] "sys" "m" 10%Z 1%Q 1%Q))
     = [("t1", "error", Some "boom")]
  /\ reports (closed_after 2
                (trace_of (chat_respond
                             (sample_world "t1" (answered hi_there_items None))
                             "hello" [] "sys" "m" 10%Z 1%Q 1%Q)))
     = [].
Proof.
  split; [|split].
  - destruct (held_token_is_reported_once
                (sample_world "t1" (answered hi_there_items None))
                "hello" [] "sys" "m" 10%Z 1%Q 1%Q) as [H _].
    destruct (H "hf_tok" "t1" eq_refl eq_refl) as (_ & _ & H3 & _).
    apply (H3 (answered hi_there_items None) hi_there_items).
    + split; [reflexivity|].
      exists "hf_tok", "m", None. repeat split; reflexivity.
    + split; [apply Qle_bool_iff|]; reflexivity.
    + reflexivity.
  - destruct (held_token_is_reported_once
                (sample_world "t1" (raising_call (OtherException "boom")))
                "hello" [] "sys" "m" 10%Z 1%Q 1%Q) as [H _].
    destruct (H "hf_tok" "t1" eq_refl eq_refl) as (_ & H2 & _).
    apply (H2 (OtherException "boom")). split; reflexivity.
  - destruct (held_token_is_reported_once
                (sample_world "t1" (answered hi_there_items None))
                "hello" [] "sys" "m" 10%Z 1%Q 1%Q) as (_ & _ & _ & H).
    apply (H 2%nat). cbn. lia.
Defined.

(** Two runs in which an acquired token is not reported.  The consumer takes
    the first partial response and closes the generator: the token "t1" was
    acquired and used for the provider call, and the run is over without a
    report.  The proxy hands out a token with the empty identifier: the run,
    driven to its end, yields both partial responses and makes no report. *)
Lemma closed_generator_leaves_token_unreported :
  closed_after 1
    (trace_of (chat_respond (sample_world "t1" (answered hi_there_items None))
                 "hello" [] "sys" "m" 10%Z 1%Q 1%Q))
  = [EvValidateKey; EvGetToken (Some "key");
     EvChatCompletion "auto" "hf_tok"
       {| kw_model := "m";
          kw_messages := [system_turn "sys"; user_turn "hello"];
          kw_max_tokens := 10%Z;
          kw_stream := true;
          kw_temperature := 1%Q;
          kw_top_p := 1%Q |};
     EvYield "Hi"]
  /\ reports
       (closed_after 1
          (trace_of (chat_respond
                       (sample_world "t1" (answered hi_there_items None))
                       "hello" [] "sys" "m" 10%Z 1%Q 1%Q)))
     = []
  /\ get_proxy_token (sample_world "" (answered hi_there_items None))
       (Some "key")
     = Returns ("hf_tok", "")
  /\ yields (trace_of (chat_respond
                         (sample_world "" (answered hi_there_items None))
                         "hello" [] "sys" "m" 10%Z 1%Q 1%Q))
     = ["Hi"; "Hi there"]
  /\ reports (trace_of (chat_respond
                          (sample_world "" (answered hi_there_items None))
                          "hello" [] "sys" "m" 10%Z 1%Q 1%Q))
     = [].
Proof. repeat split; reflexivity. Qed.

(** ** C6: the provider-bound message list *)

(** C6.  For a message that is not blank, every message list the merger's
    run sends to the provider is the system prompt, then the history the
    merger was given, then the new user turn; one such list is sent as soon
    as the key is valid, a token is acquired and the model name parses.  The
    new user turn is added once: what follows the system prompt and the prior
    history in the list is that turn alone, so it occurs in the list once
    more than in the prior history, exactly once when the prior history has
    no equal turn. *)
Theorem provider_messages_hold_user_turn_once
    (w : World) (message : string) (history : list Message)
    (system_msg model_name : string)
    (max_tokens : Z) (temperature top_p : Q) :
  str_truthy (strip message) = true ->
  let tr := fst (handle_chat_submit w message history system_msg model_name
                   max_tokens temperature top_p) in
  let sent :=
    ([system_turn system_msg] ++ history ++ [user_turn message])%list in
  (forall msgs, In msgs (provider_calls tr) -> msgs = sent) /\
  (forall tid future,
     call_made w message history system_msg model_name
               max_tokens temperature top_p tid future ->
     provider_calls tr = [sent]) /\
  skipn (S (List.length history)) sent = [user_turn message] /\
  count_occ Message_eq_dec sent (user_turn message)
  = S (count_occ Message_eq_dec history (user_turn message)) /\
  (count_occ Message_eq_dec history (user_turn message) = 0%nat ->
   count_occ Message_eq_dec sent (user_turn message) = 1%nat).
Proof.
  intros Hm tr sent.
  assert (Es : prepare_messages system_msg history message = sent).
  { unfold prepare_messages, sent. now rewrite <- app_assoc. }
  assert (Etr : provider_calls tr
                = provider_calls
                    (trace_of (chat_respond w message history system_msg
                                 model_name max_tokens temperature top_p))).
  { unfold tr. rewrite (handle_chat_submit_nonblank _ _ _ _ _ _ _ _ Hm).
    cbn [fst]. apply provider_calls_for_each_yield. }
  assert (Ec : count_occ Message_eq_dec sent (user_turn message)
               = S (count_occ Message_eq_dec history (user_turn message))).
  { unfold sent. rewrite !count_occ_app. cbn [count_occ].
    destruct (Message_eq_dec (system_turn system_msg) (user_turn message))
      as [E|_]; [discriminate E|].
    destruct (Message_eq_dec (user_turn message) (user_turn message))
      as [_|N]; [lia | now elim N]. }
  split; [|split; [|split; [|split]]].
  - intros msgs. rewrite Etr, <- Es.
    destruct (fst (validate_proxy_key w)) eqn:Hv.
    + destruct (responder_shape w message history system_msg model_name
                  max_tokens temperature top_p Hv)
        as (pre & n & _ & _ & Hp & _ & E).
      unfold trace_of. rewrite E. cbn [fst].
      rewrite !provider_calls_app, provider_calls_map_EvYield,
        provider_calls_closing_events, app_nil_r.
      apply Hp.
    + unfold trace_of. rewrite (chat_respond_invalid _ _ _ _ _ _ _ _ Hv).
      intros [].
  - intros tid future Hc. rewrite Etr, <- Es.
    destruct (responder_after_call _ _ _ _ _ _ _ _ _ _ Hc)
      as (pre & _ & _ & Hp & H).
    destruct (stream_with_timeout_shape w future "" (Some tid))
      as (n & r & E).
    destruct (H _ _ E) as [_ E2]. unfold trace_of. rewrite E2. cbn [fst].
    now rewrite !provider_calls_app, provider_calls_map_EvYield,
      provider_calls_closing_events, Hp.
  - unfold sent. cbn [app skipn]. rewrite skipn_app, skipn_all, Nat.sub_diag.
    reflexivity.
  - exact Ec.
  - intros H0. now rewrite Ec, H0.
Qed.

Lemma provider_messages_hold_user_turn_once_witness :
  provider_calls
    (fst (handle_chat_submit (sample_world "t1" (answered hi_there_items None))
            "how are you?" one_exchange "sys" "m" 10%Z 1%Q 1%Q))
  = [[system_turn "sys"; user_turn "hi"; assistant_turn "Hello!";
      user_turn "how are you?"]].
Proof.
  destruct (provider_messages_hold_user_turn_once
              (sample_world "t1" (answered hi_there_items None))
              "how are you?" one_exchange "sys" "m" 10%Z 1%Q 1%Q eq_refl)
    as (_ & H & _).
  apply (H "t1" (answered hi_there_items None)).
  split; [reflexivity|].
  exists "hf_tok", "m", None. repeat split; reflexivity.
Defined.

(** ** C7: the histories the merger yields *)

(** C7, as amended.  For a message that is not blank, the merger yields, for
    each item the responder yields and in the same order, the pair of the
    initial history plus the user turn plus one assistant turn holding that
    item, and the empty compose-box value.  Every yielded history has one
    more assistant turn than the initial one, and the last one holds the last
    item the responder yielded.  When the responder's run completes, each
    assistant content is a prefix of the final one; when it fails, the
    contents before the final error string are prefixes of the last of
    them. *)
Theorem merger_yields_growing_histories
    (w : World) (message : string) (history : list Message)
    (system_msg model_name : string)
    (max_tokens : Z) (temperature top_p : Q) :
  str_truthy (strip message) = true ->
  let ys := yields (trace_of (chat_respond w message history system_msg
                                model_name max_tokens temperature top_p)) in
  let out := yields (fst (handle_chat_submit w message history system_msg
                            model_name max_tokens temperature top_p)) in
  let state p :=
    ((history ++ [user_turn message; assistant_turn p])%list, "") in
  out = map state ys /\
  (forall h box, In (h, box) out ->
     assistant_turns h = S (assistant_turns history)) /\
  (ys <> [] -> last out (history, "") = state (last ys "")) /\
  (completes w message history system_msg model_name
             max_tokens temperature top_p ->
   forall p, In p ys -> prefix p (last ys "") = true) /\
  (forall e,
     fails_with w message history system_msg model_name
                max_tokens temperature top_p e ->
     exists ps,
       ys = (ps ++ [user_message w e])%list /\
       forall p, In p ps -> prefix p (last ps "") = true).
Proof.
  intros Hm ys out state.
  assert (E : out = map state ys).
  { unfold out. rewrite (handle_chat_submit_nonblank _ _ _ _ _ _ _ _ Hm).
    cbn [fst]. rewrite yields_for_each_yield. apply map_ext.
    intros p. unfold state. now rewrite <- app_assoc. }
  split; [exact E|]. split; [|split; [|split]].
  - intros h box Hin. rewrite E in Hin. apply in_map_iff in Hin as (p & Hp & _).
    injection Hp as <- _. rewrite assistant_turns_app.
    unfold assistant_turns at 2. cbn. lia.
  - intros Hne. rewrite E. clear E out. fold ys.
    induction ys as [|y ys' IH]; [congruence|].
    destruct ys' as [|y' ys'']; [reflexivity|].
    change (last (map state (y :: y' :: ys'')) (history, ""))
      with (last (map state (y' :: ys'')) (history, "")).
    change (last (y :: y' :: ys'') "") with (last (y' :: ys'') "").
    apply IH. discriminate.
  - intros Hc p Hp.
    destruct (responder_yields_on_completion _ _ _ _ _ _ _ _ Hc) as (n & En).
    unfold ys in *. rewrite En in *. now apply partials_prefix_last.
  - intros e Hf.
    destruct (responder_yields_on_failure _ _ _ _ _ _ _ _ _ Hf) as (n & En).
    eexists. split; [exact En|]. intros p Hp. now apply partials_prefix_last.
Qed.

Lemma merger_yields_growing_histories_witness :
  yields (fst (handle_chat_submit
                 (sample_world "t1" (answered hi_there_items None))
                 "how are you?" one_exchange "sys" "m" 10%Z 1%Q 1%Q))
  = [(one_exchange ++ [user_turn "how are you?"; assistant_turn "Hi"], "");
     (one_exchange ++ [user_turn "how are you?"; assistant_turn "Hi there"],
      "")]%list.
Proof.
  destruct (merger_yields_growing_histories
              (sample_world "t1" (answered hi_there_items None))
              "how are you?" one_exchange "sys" "m" 10%Z 1%Q 1%Q eq_refl)
    as (H & _).
  exact H.
Defined.

(** The stream delivers "Hi" and then breaks: the merger's first state holds
    "Hi", its final state holds the error string, and "Hi" is not a prefix of
    it. *)
Lemma partial_response_not_prefix_of_error :
  yields (fst (handle_chat_submit
                 (sample_world "t1"
                    (answered [(1%Q, chunk_of "Hi")]
                              (Some (OtherException "boom"))))
                 "hello" [] "sys" "m" 10%Z 1%Q 1%Q))
  = [([user_turn "hello"; assistant_turn "Hi"], "");
     ([user_turn "hello";
       assistant_turn "[Unexpected Error] An unexpected error occurred: boom"],
      "")]
  /\ prefix "Hi" "[Unexpected Error] An unexpected error occurred: boom"
     = false.
Proof. split; reflexivity. Qed.

(** ** C8: blank messages *)

(** C8.  For a message that stripping leaves empty, as it does the empty
    message and every message made only of white space, of any of the white
    space characters of Python, the merger's whole run is one yield, the pair
    of the unchanged history and the empty string: no event of the responder
    occurs. *)
Theorem blank_message_yields_unchanged_history
    (w : World) (message : string) (history : list Message)
    (system_msg model_name : string)
    (max_tokens : Z) (temperature top_p : Q) :
  (strip message = "" \/
   exists cps, forallb isspace cps = true /\ message = encode_utf8 cps) ->
  handle_chat_submit w message history system_msg model_name
                     max_tokens temperature top_p
  = ([EvYield (history, "")], Returns tt).
Proof.
  intros H.
  assert (E : strip message = "").
  { destruct H as [H | (cps & Hs & ->)]; [exact H|].
    now apply strip_of_white_space. }
  unfold handle_chat_submit. now rewrite E.
Qed.

Lemma blank_message_yields_unchanged_history_witness :
  handle_chat_submit (sample_world "t1" (answered hi_there_items None))
    (encode_utf8 [32; 160; 8195; 12288; 133; 9]%N)
    one_exchange "sys" "m" 10%Z 1%Q 1%Q
  = ([EvYield (one_exchange, "")], Returns tt)
  /\ handle_chat_submit (sample_world "t1" (answered hi_there_items None))
       "" one_exchange "sys" "m" 10%Z 1%Q 1%Q
     = ([EvYield (one_exchange, "")], Returns tt).
Proof.
  split.
  - apply (blank_message_yields_unchanged_history
             (sample_world "t1" (answered hi_there_items None))
             (encode_utf8 [32; 160; 8195; 12288; 133; 9]%N)
             one_exchange "sys" "m" 10%Z 1%Q 1%Q).
    right. exists [32; 160; 8195; 12288; 133; 9]%N. split; reflexivity.
  - apply (blank_message_yields_unchanged_history
             (sample_world "t1" (answered hi_there_items None))
             "" one_exchange "sys" "m" 10%Z 1%Q 1%Q).
    left. reflexivity.
Defined.

(** ** C9: the proxy cannot be reached *)

(** C9.  When the key is valid and acquiring the token raises a connection
    failure, the run is: the validation, the acquisition, and one yield of
    the "Connection Error" message.  No provider call is made and nothing is
    reported; the message contains "Connection Error" as soon as the
    formatter shows its category. *)
Theorem proxy_connection_failure_yields_connection_error
    (w : World) (message : string) (history : list Message)
    (system_message model_name : string)
    (max_tokens : Z) (temperature top_p : Q) (text : string) :
  fst (validate_proxy_key w) = true ->
  get_proxy_token w (getenv_PROXY_KEY w) = Raises (RequestsConnectionError text) ->
  let tr := trace_of (chat_respond w message history system_message
                        model_name max_tokens temperature top_p) in
  let shown :=
    format_error_message w "Connection Error"
      "Unable to connect to the proxy server. Please check if it's running." in
  tr = [EvValidateKey; EvGetToken (getenv_PROXY_KEY w); EvYield shown] /\
  provider_calls tr = [] /\
  reports tr = [] /\
  yields tr = [shown] /\
  (shows_category w -> str_in "Connection Error" shown = true).
Proof.
  intros Hv Hg tr shown.
  assert (E : tr = [EvValidateKey; EvGetToken (getenv_PROXY_KEY w);
                    EvYield shown]).
  { unfold tr, trace_of. rewrite (chat_respond_valid _ _ _ _ _ _ _ _ Hv).
    rewrite (try_block_no_token _ _ _ _ _ _ _ _ _ Hg). reflexivity. }
  rewrite E. repeat split. intros Hs. apply Hs.
Qed.

Lemma proxy_connection_failure_yields_connection_error_witness :
  trace_of (chat_respond unreachable_proxy "hello" [] "sys" "m" 10%Z 1%Q 1%Q)
  = [EvValidateKey; EvGetToken (Some "key");
     EvYield "[Connection Error] Unable to connect to the proxy server. Please check if it's running."].
Proof.
  apply (proxy_connection_failure_yields_connection_error
           unreachable_proxy "hello" [] "sys" "m" 10%Z 1%Q 1%Q
           "connection refused"); reflexivity.
Defined.

(** ** C10: a stream without messages *)



(** * Further properties of the responder and the merger *)

(** ** More observations and traces *)

Lemma acquisitions_app {Y} (a b : list (event Y)) :
  acquisitions (a ++ b) = (acquisitions a + acquisitions b)%nat.
Proof.
  induction a as [|ev a IH]; [reflexivity|].
  destruct ev; cbn [app acquisitions]; now rewrite IH.
Qed.

Lemma acquisitions_map_EvYield {Y} (ys : list Y) :
  acquisitions (map (@EvYield Y) ys) = 0%nat.
Proof. induction ys; cbn; [reflexivity | assumption]. Qed.

Lemma proxy_keys_app {Y} (a b : list (event Y)) :
  proxy_keys (a ++ b) = (proxy_keys a ++ proxy_keys b)%list.
Proof.
  induction a as [|ev a IH]; [reflexivity|].
  destruct ev; cbn [app proxy_keys]; now rewrite IH.
Qed.

Lemma proxy_keys_map_EvYield {Y} (ys : list Y) :
  proxy_keys (map (@EvYield Y) ys) = [].
Proof. induction ys; cbn; [reflexivity | assumption]. Qed.

Lemma provider_requests_app {Y} (a b : list (event Y)) :
  provider_requests (a ++ b)
  = (provider_requests a ++ provider_requests b)%list.
Proof.
  induction a as [|ev a IH]; [reflexivity|].
  destruct ev; cbn [app provider_requests]; now rewrite IH.
Qed.

Lemma provider_requests_map_EvYield {Y} (ys : list Y) :
  provider_requests (map (@EvYield Y) ys) = [].
Proof. induction ys; cbn; [reflexivity | assumption]. Qed.

Lemma interactions_for_each_yield {X Y} (tr : list (event X)) (body : X -> Y) :
  interactions (for_each_yield tr body) = interactions tr.
Proof.
  induction tr as [|ev tr IH]; [reflexivity|].
  destruct ev; cbn; now rewrite <- ?IH.
Qed.

(** What the closing events hold: at most one report, made with [key], no
    acquisition and no provider call. *)
Lemma closing_events_interactions (w : World) (key st : option string)
    (r : result unit) :
  acquisitions (closing_events w key st r) = 0%nat /\
  provider_requests (closing_events w key st r) = [] /\
  (List.length (reports (closing_events w key st r)) <= 1)%nat /\
  Forall (eq key) (proxy_keys (closing_events w key st r)).
Proof.
  unfold closing_events, handler_events.
  destruct r; destruct (opt_truthy st); cbn; repeat split; auto.
Qed.

Section Traces.

Variable w : World.
Variables (message : string) (history : list Message).
Variables (system_message model_name : string).
Variables (max_tokens : Z) (temperature top_p : Q).

Local Abbreviation key := (getenv_PROXY_KEY w).
Local Abbreviation responder :=
  (chat_respond w message history system_message model_name
                max_tokens temperature top_p).
Local Abbreviation try_block :=
  (chat_respond_try w message history system_message model_name
                    max_tokens temperature top_p (getenv_PROXY_KEY w)).

Hypothesis Hvalid : fst (validate_proxy_key w) = true.

(** The acquisition raises. *)
Lemma responder_trace_no_token (e : exn) :
  get_proxy_token w key = Raises e ->
  trace_of responder
  = [EvValidateKey; EvGetToken key; EvYield (user_message w e)].
Proof.
  intros Hg. unfold trace_of.
  rewrite (chat_respond_valid _ _ _ _ _ _ _ _ Hvalid).
  now rewrite (try_block_no_token _ _ _ _ _ _ _ _ _ Hg).
Qed.

(** The acquisition succeeds and the model name does not parse. *)
Lemma responder_trace_no_model (token tid : string) (e : exn) :
  get_proxy_token w key = Returns (token, tid) ->
  parse_model_and_provider w model_name = Raises e ->
  trace_of responder
  = ([EvValidateKey; EvGetToken key] ++ handler_events w key (Some tid) e)%list.
Proof.
  intros Hg Hp. unfold trace_of.
  rewrite (chat_respond_valid _ _ _ _ _ _ _ _ Hvalid).
  now rewrite (try_block_no_model _ _ _ _ _ _ _ _ _ _ _ Hg Hp).
Qed.

(** The provider call is submitted. *)
Lemma responder_trace_called (token tid model : string)
    (provider : option string) :
  get_proxy_token w key = Returns (token, tid) ->
  parse_model_and_provider w model_name = Returns (model, provider) ->
  exists n r,
    result_of try_block = r /\
    trace_of responder
    = ([EvValidateKey; EvGetToken key;
        provider_call_event message history system_message
                            max_tokens temperature top_p token model provider]
         ++ map EvYield
              (partials ""
                 (fragments
                    (firstn n
                       (delivered
                          (provider_call w message history system_message
                             max_tokens temperature top_p
                             token model provider)))))
         ++ closing_events w key (Some tid) r)%list.
Proof.
  intros Hg Hp.
  destruct (stream_with_timeout_shape w
              (provider_call w message history system_message
                 max_tokens temperature top_p token model provider)
              "" (Some tid)) as (n & r & E).
  exists n, r. unfold trace_of, result_of.
  rewrite (chat_respond_valid _ _ _ _ _ _ _ _ Hvalid).
  rewrite (try_block_called _ _ _ _ _ _ _ _ _ _ _ _ Hg Hp), E.
  cbn [fst snd]. split; [reflexivity|].
  destruct r as [[]|e]; cbn [app closing_events];
    now rewrite <- ?app_assoc, ?app_nil_r.
Qed.

End Traces.

(** ** An invalid proxy key *)

(** X1.  With an invalid proxy key the responder does nothing but yield the
    validation message: no token is asked for, the provider is not called,
    nothing is reported.  For a message that is not blank the merger then
    yields one pair, whose history ends with the user turn and an assistant
    turn holding the validation message. *)
Theorem invalid_key_stops_before_any_call
    (w : World) (message : string) (history : list Message)
    (system_message model_name : string)
    (max_tokens : Z) (temperature top_p : Q) :
  fst (validate_proxy_key w) = false ->
  trace_of (chat_respond w message history system_message model_name
              max_tokens temperature top_p)
  = [EvValidateKey; EvYield (snd (validate_proxy_key w))] /\
  (str_truthy (strip message) = true ->
   fst (handle_chat_submit w message history system_message model_name
          max_tokens temperature top_p)
   = [EvValidateKey;
      EvYield ((history ++ [user_turn message;
                            assistant_turn (snd (validate_proxy_key w))])%list,
               "")]).
Proof.
  intros Hv.
  assert (E : trace_of (chat_respond w message history system_message
                          model_name max_tokens temperature top_p)
              = [EvValidateKey; EvYield (snd (validate_proxy_key w))]).
  { unfold trace_of. now rewrite (chat_respond_invalid _ _ _ _ _ _ _ _ Hv). }
  split; [exact E|]. intros Hm.
  rewrite (handle_chat_submit_nonblank _ _ _ _ _ _ _ _ Hm). cbn [fst].
  rewrite E. cbn. now rewrite <- app_assoc.
Qed.

Lemma invalid_key_stops_before_any_call_witness :
  trace_of (chat_respond invalid_key_world "hello" [] "sys" "m" 10%Z 1%Q 1%Q)
  = [EvValidateKey; EvYield "PROXY_KEY is not set"] /\
  (str_truthy (strip "hello") = true ->
   fst (handle_chat_submit invalid_key_world "hello" [] "sys" "m" 10%Z 1%Q 1%Q)
   = [EvValidateKey;
      EvYield ([user_turn "hello"; assistant_turn "PROXY_KEY is not set"], "")]).
Proof.
  apply (invalid_key_stops_before_any_call invalid_key_world
           "hello" [] "sys" "m" 10%Z 1%Q 1%Q).
  reflexivity.
Defined.

(** ** Failures before the provider call *)

(** X2.  Whatever the acquisition of the token raises, the run is the
    validation, the acquisition and one yield, the error string of the class
    of the exception: "Timeout Error" for a builtin timeout, "Unexpected
    Error" with the text for an exception of no handled class.  Nothing is
    reported and the provider is not called. *)
Theorem failed_acquisition_is_shown_not_reported
    (w : World) (message : string) (history : list Message)
    (system_message model_name : string)
    (max_tokens : Z) (temperature top_p : Q) (e : exn) :
  fst (validate_proxy_key w) = true ->
  get_proxy_token w (getenv_PROXY_KEY w) = Raises e ->
  let tr := trace_of (chat_respond w message history system_message
                        model_name max_tokens temperature top_p) in
  (exists shown,
     tr = [EvValidateKey; EvGetToken (getenv_PROXY_KEY w); EvYield shown] /\
     (forall text, e = BuiltinTimeoutError text ->
        shown = format_error_message w "Timeout Error"
                  "The request took too long. The server may be overloaded. Please try again.") /\
     (forall text, e = OtherException text ->
        shown = format_error_message w "Unexpected Error"
                  ("An unexpected error occurred: " ++ text))) /\
  reports tr = [] /\
  provider_calls tr = [].
Proof.
  intros Hv Hg tr.
  assert (E : tr = [EvValidateKey; EvGetToken (getenv_PROXY_KEY w);
                    EvYield (user_message w e)])
    by apply (responder_trace_no_token _ _ _ _ _ _ _ _ Hv _ Hg).
  rewrite E. split; [|split; reflexivity].
  exists (user_message w e). split; [reflexivity|].
  split; intros text ->; reflexivity.
Qed.

Lemma failed_acquisition_is_shown_not_reported_witness :
  trace_of (chat_respond (failing_proxy (BuiltinTimeoutError "proxy is slow"))
              "hello" [] "sys" "m" 10%Z 1%Q 1%Q)
  = [EvValidateKey; EvGetToken (Some "key");
     EvYield "[Timeout Error] The request took too long. The server may be overloaded. Please try again."].
Proof.
  destruct (failed_acquisition_is_shown_not_reported
              (failing_proxy (BuiltinTimeoutError "proxy is slow"))
              "hello" [] "sys" "m" 10%Z 1%Q 1%Q
              (BuiltinTimeoutError "proxy is slow") eq_refl eq_refl)
    as ((shown & E & Ht & _) & _).
  rewrite E. now rewrite (Ht "proxy is slow" eq_refl).
Defined.

(** X3.  When the token is acquired and held but the model name cannot be
    parsed, the provider is not called, and the token is still reported, with
    status "error" and the message of the failure, right before the error
    string is yielded. *)
Theorem unparsable_model_reports_the_token
    (w : World) (message : string) (history : list Message)
    (system_message model_name : string)
    (max_tokens : Z) (temperature top_p : Q)
    (token tid : string) (e : exn) :
  fst (validate_proxy_key w) = true ->
  get_proxy_token w (getenv_PROXY_KEY w) = Returns (token, tid) ->
  str_truthy tid = true ->
  parse_model_and_provider w model_name = Raises e ->
  let tr := trace_of (chat_respond w message history system_message
                        model_name max_tokens temperature top_p) in
  tr = [EvValidateKey; EvGetToken (getenv_PROXY_KEY w);
        EvReport tid "error" (Some (report_message w e)) (getenv_PROXY_KEY w);
        EvYield (user_message w e)] /\
  provider_calls tr = [] /\
  (forall text, e = OtherException text ->
     report_message w e = text /\
     user_message w e = format_error_message w "Unexpected Error"
                          ("An unexpected error occurred: " ++ text)).
Proof.
  intros Hv Hg Ht Hp tr.
  assert (E : tr = [EvValidateKey; EvGetToken (getenv_PROXY_KEY w);
                    EvReport tid "error" (Some (report_message w e))
                             (getenv_PROXY_KEY w);
                    EvYield (user_message w e)]).
  { unfold tr. rewrite (responder_trace_no_model _ _ _ _ _ _ _ _ Hv _ _ _ Hg Hp).
    unfold handler_events. cbn [opt_truthy]. now rewrite Ht. }
  rewrite E. split; [reflexivity|]. split; [reflexivity|].
  intros text ->. split; reflexivity.
Qed.

Lemma unparsable_model_reports_the_token_witness :
  trace_of (chat_respond unparsable_model_world
              "hello" [] "sys" "m:x:y" 10%Z 1%Q 1%Q)
  = [EvValidateKey; EvGetToken (Some "key");
     EvReport "t1" "error" (Some "bad model") (Some "key");
     EvYield "[Unexpected Error] An unexpected error occurred: bad model"].
Proof.
  apply (unparsable_model_reports_the_token unparsable_model_world
           "hello" [] "sys" "m:x:y" 10%Z 1%Q 1%Q "hf_tok" "t1"
           (OtherException "bad model")); reflexivity.
Defined.

(** ** Failures after the acquisition *)






(** ** What a run talks to *)

(** X6.  In every run the responder asks the proxy for a token at most once,
    calls the provider at most once and makes at most one report: nothing is
    tried again. *)
Theorem nothing_is_tried_twice
    (w : World) (message : string) (history : list Message)
    (system_message model_name : string)
    (max_tokens : Z) (temperature top_p : Q) :
  let tr := trace_of (chat_respond w message history system_message
                        model_name max_tokens temperature top_p) in
  (acquisitions tr <= 1)%nat /\
  (List.length (provider_requests tr) <= 1)%nat /\
  (List.length (reports tr) <= 1)%nat.
Proof.
  intros tr. unfold tr. destruct (fst (validate_proxy_key w)) eqn:Hv.
  - destruct (get_proxy_token w (getenv_PROXY_KEY w)) as [[token tid]|e] eqn:Hg.
    + destruct (parse_model_and_provider w model_name)
        as [[model provider]|e] eqn:Hp.
      * destruct (responder_trace_called w message history system_message
                    model_name max_tokens temperature top_p Hv
                    token tid model provider Hg Hp)
          as (n & r & _ & ->).
        destruct (closing_events_interactions w (getenv_PROXY_KEY w)
                    (Some tid) r) as (Ha & Hq & Hr & _).
        rewrite !acquisitions_app, !provider_requests_app, !reports_app.
        rewrite acquisitions_map_EvYield, provider_requests_map_EvYield,
          reports_map_EvYield, Ha, Hq.
        cbn. repeat split; auto.
      * rewrite (responder_trace_no_model _ _ _ _ _ _ _ _ Hv _ _ _ Hg Hp).
        change (handler_events w (getenv_PROXY_KEY w) (Some tid) e)
          with (closing_events w (getenv_PROXY_KEY w) (Some tid) (Raises e)).
        destruct (closing_events_interactions w (getenv_PROXY_KEY w)
                    (Some tid) (Raises e)) as (Ha & Hq & Hr & _).
        rewrite !acquisitions_app, !provider_requests_app, !reports_app.
        rewrite Ha, Hq. cbn. repeat split; auto.
    + rewrite (responder_trace_no_token _ _ _ _ _ _ _ _ Hv _ Hg).
      cbn. repeat split; auto.
  - unfold trace_of. rewrite (chat_respond_invalid _ _ _ _ _ _ _ _ Hv).
    cbn. repeat split; auto.
Qed.

(** X7.  Once the key is valid, the token acquired and the model name parsed,
    the one provider call of the run is made with the parsed provider, or
    "auto" when there is none or it is empty, with the acquired token as API
    key, and with the parsed model, the message list (system prompt, history,
    user message), the generation parameters as given and streaming on. *)
Theorem provider_call_arguments
    (w : World) (message : string) (history : list Message)
    (system_message model_name : string)
    (max_tokens : Z) (temperature top_p : Q)
    (token tid model : string) (provider : option string) :
  fst (validate_proxy_key w) = true ->
  get_proxy_token w (getenv_PROXY_KEY w) = Returns (token, tid) ->
  parse_model_and_provider w model_name = Returns (model, provider) ->
  provider_requests
    (trace_of (chat_respond w message history system_message model_name
                 max_tokens temperature top_p))
  = [(match provider with
      | Some (String c p) => String c p
      | Some EmptyString | None => "auto"
      end,
      token,
      {| kw_model := model;
         kw_messages :=
           (system_turn system_message :: history ++ [user_turn message])%list;
         kw_max_tokens := max_tokens;
         kw_stream := true;
         kw_temperature := temperature;
         kw_top_p := top_p |})].
Proof.
  intros Hv Hg Hp.
  destruct (responder_trace_called w message history system_message
                    model_name max_tokens temperature top_p Hv
                    token tid model provider Hg Hp)
    as (n & r & _ & ->).
  destruct (closing_events_interactions w (getenv_PROXY_KEY w) (Some tid) r)
    as (_ & Hq & _).
  rewrite !provider_requests_app, provider_requests_map_EvYield, Hq.
  unfold provider_call_event, provider_or_auto.
  destruct provider as [[|c p]|]; reflexivity.
Qed.

Lemma provider_call_arguments_witness :
  provider_requests
    (trace_of (chat_respond
                 (older_python_world "together" (answered hi_there_items None))
                 "hello" one_exchange "sys" "m" 10%Z 1%Q 1%Q))
  = [("together", "hf_tok",
      {| kw_model := "m";
         kw_messages :=
           [system_turn "sys"; user_turn "hi"; assistant_turn "Hello!";
            user_turn "hello"];
         kw_max_tokens := 10%Z;
         kw_stream := true;
         kw_temperature := 1%Q;
         kw_top_p := 1%Q |})].
Proof.
  apply (provider_call_arguments
           (older_python_world "together" (answered hi_there_items None))
           "hello" one_exchange "sys" "m" 10%Z 1%Q 1%Q
           "hf_tok" "t1" "m" (Some "together")); reflexivity.
Defined.

(** X8.  Every request made to the proxy in a run, the acquisition as well
    as the report, carries the key read from the environment variable
    PROXY_KEY. *)
Theorem proxy_is_addressed_with_the_environment_key
    (w : World) (message : string) (history : list Message)
    (system_message model_name : string)
    (max_tokens : Z) (temperature top_p : Q) :
  Forall (eq (getenv_PROXY_KEY w))
    (proxy_keys (trace_of (chat_respond w message history system_message
                             model_name max_tokens temperature top_p))).
Proof.
  destruct (fst (validate_proxy_key w)) eqn:Hv.
  - destruct (get_proxy_token w (getenv_PROXY_KEY w)) as [[token tid]|e] eqn:Hg.
    + destruct (parse_model_and_provider w model_name)
        as [[model provider]|e] eqn:Hp.
      * destruct (responder_trace_called w message history system_message
                    model_name max_tokens temperature top_p Hv
                    token tid model provider Hg Hp)
          as (n & r & _ & ->).
        destruct (closing_events_interactions w (getenv_PROXY_KEY w)
                    (Some tid) r) as (_ & _ & _ & Hk).
        rewrite !proxy_keys_app, proxy_keys_map_EvYield. cbn.
        constructor; [reflexivity | exact Hk].
      * rewrite (responder_trace_no_model _ _ _ _ _ _ _ _ Hv _ _ _ Hg Hp).
        change (handler_events w (getenv_PROXY_KEY w) (Some tid) e)
          with (closing_events w (getenv_PROXY_KEY w) (Some tid) (Raises e)).
        destruct (closing_events_interactions w (getenv_PROXY_KEY w)
                    (Some tid) (Raises e)) as (_ & _ & _ & Hk).
        rewrite proxy_keys_app. cbn. constructor; [reflexivity | exact Hk].
    + rewrite (responder_trace_no_token _ _ _ _ _ _ _ _ Hv _ Hg).
      cbn. repeat constructor.
  - unfold trace_of. rewrite (chat_respond_invalid _ _ _ _ _ _ _ _ Hv).
    cbn. constructor.
Qed.

(** ** Growth of the partial responses *)

Lemma concat_str_app (a b : list string) :
  concat_str (a ++ b) = concat_str a ++ concat_str b.
Proof.
  induction a as [|x a IH]; [reflexivity|].
  cbn [app concat_str fold_right]. fold (concat_str (a ++ b)).
  fold (concat_str a). now rewrite IH, str_append_assoc.
Qed.

(** Of two partial responses the earlier one is a prefix of the later one. *)
Lemma partials_chain (fs : list string) (acc d : string) (i j : nat) :
  (i <= j)%nat -> (j < List.length fs)%nat ->
  prefix (nth i (partials acc fs) d) (nth j (partials acc fs) d) = true.
Proof.
  intros Hij Hj. rewrite !partials_nth by lia.
  rewrite <- (firstn_skipn (S i) (firstn (S j) fs)).
  rewrite firstn_firstn, Nat.min_l by lia.
  rewrite concat_str_app, <- str_append_assoc. apply prefix_append.
Qed.

(** X9.  The items a run of the responder yields are partial responses
    followed by at most one other item (an error string; none when the run
    completes), and the partial responses only grow: each one is a prefix of
    every later one. *)
Theorem partial_responses_only_grow
    (w : World) (message : string) (history : list Message)
    (system_message model_name : string)
    (max_tokens : Z) (temperature top_p : Q) :
  exists ps tail,
    yields (trace_of (chat_respond w message history system_message
                        model_name max_tokens temperature top_p))
    = (ps ++ tail)%list /\
    (List.length tail <= 1)%nat /\
    (completes w message history system_message model_name
               max_tokens temperature top_p -> tail = []) /\
    (forall i j, (i <= j)%nat -> (j < List.length ps)%nat ->
       prefix (nth i ps "") (nth j ps "") = true).
Proof.
  destruct (fst (validate_proxy_key w)) eqn:Hv.
  - destruct (valid_run_completes_or_fails w message history system_message
                model_name max_tokens temperature top_p Hv) as [Hc | [e Hf]].
    + destruct (responder_yields_on_completion _ _ _ _ _ _ _ _ Hc) as (n & E).
      eexists _, []. rewrite app_nil_r. split; [exact E|].
      split; [cbn; lia|]. split; [reflexivity|].
      intros i j Hij Hj. rewrite partials_length in Hj.
      now apply partials_chain.
    + destruct (responder_yields_on_failure _ _ _ _ _ _ _ _ _ Hf) as (n & E).
      eexists _, _. split; [exact E|]. split; [cbn; lia|]. split.
      * intros [_ Hc]. destruct Hf as [_ Hf]. rewrite Hc in Hf. discriminate.
      * intros i j Hij Hj. rewrite partials_length in Hj.
        now apply partials_chain.
  - exists [], [snd (validate_proxy_key w)]. split.
    + unfold trace_of. now rewrite (chat_respond_invalid _ _ _ _ _ _ _ _ Hv).
    + split; [cbn; lia|]. split.
      * intros [Hc _]. rewrite Hc in Hv. discriminate.
      * intros i j _ Hj. cbn in Hj. lia.
Qed.

(** ** The idle timer *)

Lemma last_content_time_contentless (items : list (Q * Chunk)) (start : Q) :
  contentless items -> last_content_time start items = start.
Proof.
  unfold last_content_time.
  induction items as [|it items IH]; intros H; [reflexivity|].
  cbn [fold_left]. unfold next_last at 2.
  rewrite (H it (or_introl eq_refl)). apply IH.
  intros it' Hin. apply H. now right.
Qed.

Lemma partials_of_empty_fragments (fs : list string) :
  (forall f, In f fs -> f = "") ->
  partials "" fs = repeat "" (List.length fs).
Proof.
  induction fs as [|f fs IH]; intros H; [reflexivity|].
  cbn [partials List.length repeat].
  rewrite (H f (or_introl eq_refl)). cbn [append]. f_equal.
  apply IH. intros g Hg. apply H. now right.
Qed.

Lemma in_firstn_in {A} (l : list A) (n : nat) (x : A) :
  In x (firstn n l) -> In x l.
Proof.
  revert n; induction l as [|y l IH]; intros [|n]; cbn; try tauto.
  intros [->|H]; [now left | right; now apply (IH n)].
Qed.

Lemma fragments_contentless (items : list (Q * Chunk)) (n : nat) :
  contentless items ->
  forall f, In f (fragments (firstn n items)) -> f = "".
Proof.
  intros H f Hf. unfold fragments in Hf.
  apply in_map_iff in Hf as (m & <- & Hm).
  apply in_map_iff in Hm as (it & <- & Hit).
  apply fragment_contentless, H. eapply in_firstn_in. exact Hit.
Qed.

(** X10.  Messages without content do not keep a stream alive: the idle timer
    is reset by content only.  When no message before some message of the
    stream carries content and that message arrives more than 30 seconds
    after the stream was obtained, the run ends with the "Timeout Error"
    string, however closely the messages followed one another; before it,
    only empty partial responses were yielded. *)
Theorem contentless_messages_do_not_reset_the_timer
    (w : World) (message : string) (history : list Message)
    (system_message model_name : string)
    (max_tokens : Z) (temperature top_p : Q)
    (tid : string) (future : PendingCall)
    (pre post : list (Q * Chunk)) (t : Q) (m : Chunk) (ending : option exn) :
  call_made w message history system_message model_name
            max_tokens temperature top_p tid future ->
  gives_stream future (pre ++ (t, m) :: post)%list ending ->
  contentless pre ->
  (inject_Z token_timeout < t - stream_start_time w)%Q ->
  exists k,
    (k <= List.length pre)%nat /\
    yields (trace_of (chat_respond w message history system_message
                        model_name max_tokens temperature top_p))
    = (repeat "" k
         ++ [format_error_message w "Timeout Error"
               "The request took too long. The server may be overloaded. Please try again."])%list.
Proof.
  intros Hc Hs Hpre Hlate.
  rewrite <- (last_content_time_contentless pre (stream_start_time w) Hpre)
    in Hlate.
  destruct (stream_with_timeout_idle w future pre post t m ending ""
              (Some tid) Hs Hlate) as (n & E).
  destruct (responder_after_call _ _ _ _ _ _ _ _ _ _ Hc)
    as (before & Hy & _ & _ & H).
  destruct (H _ _ E) as [_ E2].
  exists (List.length (fragments (firstn n pre))). split.
  - unfold fragments. rewrite !length_map, length_firstn. lia.
  - unfold trace_of. rewrite E2. cbn [fst].
    rewrite !yields_app, Hy, yields_map_EvYield, yields_closing_events.
    rewrite (partials_of_empty_fragments _ (fragments_contentless pre n Hpre)).
    cbn [app]. now destruct (futures_timeout_is_builtin w).
Qed.

Lemma contentless_messages_do_not_reset_the_timer_witness :
  exists k,
    (k <= 3)%nat /\
    yields (trace_of (chat_respond
                        (sample_world "t1" (answered keepalive_items None))
                        "hello" [] "sys" "m" 10%Z 1%Q 1%Q))
    = (repeat "" k
         ++ ["[Timeout Error] The request took too long. The server may be overloaded. Please try again."])%list.
Proof.
  apply (contentless_messages_do_not_reset_the_timer
           (sample_world "t1" (answered keepalive_items None))
           "hello" [] "sys" "m" 10%Z 1%Q 1%Q "t1"
           (answered keepalive_items None)
           [(10%Q, chunk_no_content); (20%Q, chunk_no_choice);
            (30%Q, chunk_no_content)]
           [] 40%Q chunk_no_content None).
  - split; [reflexivity|].
    exists "hf_tok", "m", None. repeat split; reflexivity.
  - split; [apply Qle_bool_iff|]; reflexivity.
  - intros it [<-|[<-|[<-|[]]]]; reflexivity.
  - reflexivity.
Defined.

Lemma within_idle_window_app (a b : list (Q * Chunk)) :
  forall last,
    within_idle_window last (a ++ b)%list
    = within_idle_window last a
      && within_idle_window (last_content_time last a) b.
Proof.
  induction a as [|it a IH]; intros last.
  - reflexivity.
  - cbn [app within_idle_window]. rewrite IH, andb_assoc. reflexivity.
Qed.

(** X11.  The limit of 30 seconds is inclusive: the test before a stream
    message is handled is a strict [>].  A message that arrives exactly 30
    seconds after the last content-bearing one before it (after the stream
    was obtained, when there is none) is handled like any other: in a stream
    otherwise in time the run completes and the partial response of that
    message is yielded as well. *)
Theorem idle_limit_is_inclusive
    (w : World) (message : string) (history : list Message)
    (system_message model_name : string)
    (max_tokens : Z) (temperature top_p : Q)
    (tid : string) (future : PendingCall)
    (pre : list (Q * Chunk)) (t : Q) (m : Chunk) :
  call_made w message history system_message model_name
            max_tokens temperature top_p tid future ->
  gives_stream future (pre ++ [(t, m)])%list None ->
  within_idle_window (stream_start_time w) pre = true ->
  (t - last_content_time (stream_start_time w) pre
   == inject_Z token_timeout)%Q ->
  result_of (chat_respond_try w message history system_message model_name
               max_tokens temperature top_p (getenv_PROXY_KEY w))
  = Returns tt /\
  yields (trace_of (chat_respond w message history system_message
                      model_name max_tokens temperature top_p))
  = partials "" (fragments (pre ++ [(t, m)])%list).
Proof.
  intros Hc Hs Hpre Ht.
  assert (Hin : within_idle_window (stream_start_time w)
                  (pre ++ [(t, m)])%list = true).
  { rewrite within_idle_window_app, Hpre.
    cbn [within_idle_window fst andb]. rewrite andb_true_r.
    apply Qle_bool_iff. rewrite Ht. apply Qle_refl. }
  destruct (responder_run_in_time _ _ _ _ _ _ _ _ _ _ Hc _ Hs Hin)
    as (Er & before & Hy & _ & E).
  split; [exact Er|].
  rewrite E, !yields_app, Hy, yields_map_EvYield, yields_closing_events.
  cbn [app]. now rewrite app_nil_r.
Qed.

Lemma idle_limit_is_inclusive_witness :
  result_of (chat_respond_try
               (sample_world "t1"
                  (answered [(1%Q, chunk_of "Hi"); (31%Q, chunk_of " there")]
                     None))
               "hello" [] "sys" "m" 10%Z 1%Q 1%Q (Some "key"))
  = Returns tt /\
  yields (trace_of (chat_respond
                      (sample_world "t1"
                         (answered
                            [(1%Q, chunk_of "Hi"); (31%Q, chunk_of " there")]
                            None))
                      "hello" [] "sys" "m" 10%Z 1%Q 1%Q))
  = ["Hi"; "Hi there"].
Proof.
  apply (idle_limit_is_inclusive
           (sample_world "t1"
              (answered [(1%Q, chunk_of "Hi"); (31%Q, chunk_of " there")]
                 None))
           "hello" [] "sys" "m" 10%Z 1%Q 1%Q "t1"
           (answered [(1%Q, chunk_of "Hi"); (31%Q, chunk_of " there")] None)
           [(1%Q, chunk_of "Hi")] 31%Q (chunk_of " there")).
  - split; [reflexivity|].
    exists "hf_tok", "m", None. repeat split; reflexivity.
  - split; [apply Qle_bool_iff|]; reflexivity.
  - reflexivity.
  - reflexivity.
Defined.

(** ** What is reported for a timeout *)

(** X12.  For a stream message that arrives too late the message reported to
    the proxy depends on the Python at hand.  Where
    [concurrent.futures.TimeoutError] is the builtin [TimeoutError], the
    handler around the loop takes the idle timeout too and the report speaks
    of the 120 seconds; elsewhere it speaks of the 30 seconds without
    response. *)
Theorem idle_timeout_report_message
    (w : World) (message : string) (history : list Message)
    (system_message model_name : string)
    (max_tokens : Z) (temperature top_p : Q)
    (tid : string) (future : PendingCall)
    (pre post : list (Q * Chunk)) (t : Q) (m : Chunk) (ending : option exn) :
  call_made w message history system_message model_name
            max_tokens temperature top_p tid future ->
  str_truthy tid = true ->
  gives_stream future (pre ++ (t, m) :: post)%list ending ->
  (inject_Z token_timeout
   < t - last_content_time (stream_start_time w) pre)%Q ->
  reports (trace_of (chat_respond w message history system_message
                       model_name max_tokens temperature top_p))
  = [(tid, "error",
      Some (if futures_timeout_is_builtin w
            then "Request timed out: Chat request timed out after 120 seconds"
            else "Request timed out: No response received for 30 seconds during streaming"))].
Proof.
  intros Hc Ht Hs Hlate.
  destruct (stream_with_timeout_idle w future pre post t m ending ""
              (Some tid) Hs Hlate) as (n & E).
  destruct (responder_after_call _ _ _ _ _ _ _ _ _ _ Hc)
    as (before & _ & Hr & _ & H).
  destruct (H _ _ E) as [_ E2].
  unfold trace_of. rewrite E2. cbn [fst].
  rewrite !reports_app, Hr, reports_map_EvYield.
  rewrite (reports_closing_events _ _ _ _ Ht).
  now destruct (futures_timeout_is_builtin w).
Qed.

Lemma idle_timeout_report_message_witness :
  reports (trace_of (chat_respond
                       (sample_world "t1" (answered stalled_items None))
                       "hello" [] "sys" "m" 10%Z 1%Q 1%Q))
  = [("t1", "error",
      Some "Request timed out: Chat request timed out after 120 seconds")]
  /\ reports (trace_of (chat_respond
                          (older_python_world "together"
                             (answered stalled_items None))
                          "hello" [] "sys" "m" 10%Z 1%Q 1%Q))
     = [("t1", "error",
         Some "Request timed out: No response received for 30 seconds during streaming")].
Proof.
  split.
  - apply (idle_timeout_report_message
             (sample_world "t1" (answered stalled_items None))
             "hello" [] "sys" "m" 10%Z 1%Q 1%Q "t1"
             (answered stalled_items None)
             [(1%Q, chunk_of "Hi")] [] 40%Q (chunk_of " there") None).
    + split; [reflexivity|].
      exists "hf_tok", "m", None. repeat split; reflexivity.
    + reflexivity.
    + split; [apply Qle_bool_iff|]; reflexivity.
    + reflexivity.
  - apply (idle_timeout_report_message
             (older_python_world "together" (answered stalled_items None))
             "hello" [] "sys" "m" 10%Z 1%Q 1%Q "t1"
             (answered stalled_items None)
             [(1%Q, chunk_of "Hi")] [] 40%Q (chunk_of " there") None).
    + split; [reflexivity|].
      exists "hf_tok", "m", (Some "together"). repeat split; reflexivity.
    + reflexivity.
    + split; [apply Qle_bool_iff|]; reflexivity.
    + reflexivity.
Defined.

(** X13.  What a provider call gives when it ends, but only after more than
    120 seconds, is never used: be it a stream or an exception of its own,
    the run yields the "Timeout Error" string and nothing else, and the held
    token is reported with the message of the 120 seconds. *)
Theorem late_call_result_is_discarded
    (w : World) (message : string) (history : list Message)
    (system_message model_name : string)
    (max_tokens : Z) (temperature top_p : Q)
    (tid : string) (future : PendingCall) :
  call_made w message history system_message model_name
            max_tokens temperature top_p tid future ->
  str_truthy tid = true ->
  (inject_Z INFERENCE_TIMEOUT < call_duration future)%Q ->
  let tr := trace_of (chat_respond w message history system_message
                        model_name max_tokens temperature top_p) in
  yields tr
  = [format_error_message w "Timeout Error"
       "The request took too long. The server may be overloaded. Please try again."] /\
  reports tr
  = [(tid, "error",
      Some "Request timed out: Chat request timed out after 120 seconds")].
Proof.
  intros Hc Ht Hlate tr.
  destruct (responder_after_call _ _ _ _ _ _ _ _ _ _ Hc)
    as (before & Hy & Hr & _ & H).
  destruct (H _ _ (stream_with_timeout_late_open w future "" (Some tid) Hlate))
    as [_ E2].
  unfold tr, trace_of. rewrite E2. cbn [fst map app]. split.
  - now rewrite yields_app, Hy, yields_closing_events.
  - now rewrite reports_app, Hr, (reports_closing_events _ _ _ _ Ht).
Qed.

Lemma late_call_result_is_discarded_witness :
  yields (trace_of (chat_respond
                      (sample_world "t1"
                         {| call_duration := 121%Q;
                            call_result :=
                              Raises (HfHubHTTPError 401 "401 Unauthorized") |})
                      "hello" [] "sys" "m" 10%Z 1%Q 1%Q))
  = ["[Timeout Error] The request took too long. The server may be overloaded. Please try again."]
  /\ reports (trace_of (chat_respond
                          (sample_world "t1"
                             {| call_duration := 121%Q;
                                call_result :=
                                  Raises (HfHubHTTPError 401
                                            "401 Unauthorized") |})
                          "hello" [] "sys" "m" 10%Z 1%Q 1%Q))
     = [("t1", "error",
         Some "Request timed out: Chat request timed out after 120 seconds")].
Proof.
  apply (late_call_result_is_discarded
           (sample_world "t1"
              {| call_duration := 121%Q;
                 call_result :=
                   Raises (HfHubHTTPError 401 "401 Unauthorized") |})
           "hello" [] "sys" "m" 10%Z 1%Q 1%Q "t1"
           {| call_duration := 121%Q;
              call_result := Raises (HfHubHTTPError 401 "401 Unauthorized") |}).
  - split; [reflexivity|].
    exists "hf_tok", "m", None. repeat split; reflexivity.
  - reflexivity.
  - reflexivity.
Defined.

(** ** The two timeouts, for a call that ends *)

(** X18.  The two timeouts of claim C2, for a provider call that ends.  When
    the call ends only after more than 120 seconds, or a stream message
    arrives more than 30 seconds after the last content-bearing one, the
    [try] block raises a timeout condition, the token (held, that is with a
    truthy identifier) is reported with status "error" and the timeout's
    message, and then the formatted error string of category "Timeout Error"
    is yielded, last; it contains "Timeout" as soon as the formatter shows
    its category. *)
Theorem timeout_is_reported_then_shown
    (w : World) (message : string) (history : list Message)
    (system_message model_name : string)
    (max_tokens : Z) (temperature top_p : Q)
    (tid : string) (future : PendingCall) :
  call_made w message history system_message model_name
            max_tokens temperature top_p tid future ->
  str_truthy tid = true ->
  timed_out w future ->
  let tr := trace_of (chat_respond w message history system_message
                        model_name max_tokens temperature top_p) in
  let shown :=
    format_error_message w "Timeout Error"
      "The request took too long. The server may be overloaded. Please try again." in
  exists text before,
    result_of (chat_respond_try w message history system_message model_name
                 max_tokens temperature top_p (getenv_PROXY_KEY w))
    = Raises (BuiltinTimeoutError text) /\
    tr = (before ++ [EvReport tid "error" (Some ("Request timed out: " ++ text)%string)
                       (getenv_PROXY_KEY w);
                     EvYield shown])%list /\
    reports before = [] /\
    last (yields tr) "" = shown /\
    (shows_category w -> str_in "Timeout" shown = true).
Proof.
  intros Hc Ht Hto tr shown.
  destruct (responder_run_timed_out _ _ _ _ _ _ _ _ _ _ Hc Hto)
    as (text & fs & pre & Er & Hy & Hr & Etr).
  exists text, (pre ++ map EvYield (partials "" fs))%list.
  assert (E : tr = ((pre ++ map EvYield (partials "" fs))
                      ++ [EvReport tid "error"
                            (Some ("Request timed out: " ++ text)%string)
                            (getenv_PROXY_KEY w);
                          EvYield shown])%list).
  { unfold tr. rewrite Etr. unfold closing_events, handler_events.
    cbn [opt_truthy]. rewrite Ht. now rewrite app_assoc. }
  split; [exact Er|]. split; [exact E|]. split; [|split].
  - now rewrite reports_app, Hr, reports_map_EvYield.
  - rewrite E, yields_app. cbn [yields]. apply last_last.
  - intros Hshow. apply (str_in_trans _ "Timeout Error"); [reflexivity|].
    apply Hshow.
Qed.

Lemma sample_format_shows_category (tid : string) (pending : PendingCall) :
  shows_category (sample_world tid pending).
Proof. intros ty msg. apply (str_in_intro ty "["). Qed.

Lemma timeout_is_reported_then_shown_witness :
  (last (yields (trace_of (chat_respond (sample_world "t1" late_call)
                             "hello" [] "sys" "m" 10%Z 1%Q 1%Q))) ""
   = "[Timeout Error] The request took too long. The server may be overloaded. Please try again."
   /\ str_in "Timeout"
        "[Timeout Error] The request took too long. The server may be overloaded. Please try again."
      = true)
  /\ last (yields (trace_of (chat_respond
                               (sample_world "t1" (answered stalled_items None))
                               "hello" [] "sys" "m" 10%Z 1%Q 1%Q))) ""
     = "[Timeout Error] The request took too long. The server may be overloaded. Please try again.".
Proof.
  split.
  - destruct (timeout_is_reported_then_shown (sample_world "t1" late_call)
                "hello" [] "sys" "m" 10%Z 1%Q 1%Q "t1" late_call)
      as (text & before & _ & _ & _ & H & Hs).
    + split; [reflexivity|].
      exists "hf_tok", "m", None. repeat split; reflexivity.
    + reflexivity.
    + left. reflexivity.
    + split; [exact H|]. apply Hs, sample_format_shows_category.
  - destruct (timeout_is_reported_then_shown
                (sample_world "t1" (answered stalled_items None))
                "hello" [] "sys" "m" 10%Z 1%Q 1%Q "t1"
                (answered stalled_items None))
      as (text & before & _ & _ & _ & H & _).
    + split; [reflexivity|].
      exists "hf_tok", "m", None. repeat split; reflexivity.
    + reflexivity.
    + right. exists [(1%Q, chunk_of "Hi")], 40%Q, (chunk_of " there"), [], None.
      split; [split; [apply Qle_bool_iff|]; reflexivity | reflexivity].
    + exact H.
Defined.

(** ** The success report *)

(** X14.  In a run that completes with a held token the success report is
    the last event of all: every partial response has been yielded before the
    token is reported as good. *)
Theorem success_is_reported_after_the_last_yield
    (w : World) (message : string) (history : list Message)
    (system_message model_name : string)
    (max_tokens : Z) (temperature top_p : Q)
    (token tid : string) :
  completes w message history system_message model_name
            max_tokens temperature top_p ->
  get_proxy_token w (getenv_PROXY_KEY w) = Returns (token, tid) ->
  str_truthy tid = true ->
  let tr := trace_of (chat_respond w message history system_message
                        model_name max_tokens temperature top_p) in
  exists before,
    tr = (before ++ [EvReport tid "success" None (getenv_PROXY_KEY w)])%list /\
    yields before = yields tr /\
    reports before = [].
Proof.
  intros [Hv Hc] Hg Ht tr.
  destruct (responder_shape w message history system_message model_name
              max_tokens temperature top_p Hv)
    as (pre & n & Hy & Hr & _ & _ & E).
  assert (Etr : tr = ((pre ++ map EvYield
                               (partials ""
                                  (fragments
                                     (firstn n
                                        (received w message history
                                           system_message model_name
                                           max_tokens temperature top_p)))))
                        ++ [EvReport tid "success" None (getenv_PROXY_KEY w)])%list).
  { unfold tr, trace_of. rewrite E, Hc. cbn [fst closing_events].
    unfold acquired_id. rewrite Hg. cbn [opt_truthy]. rewrite Ht.
    now rewrite app_assoc. }
  eexists. split; [exact Etr|]. split.
  - rewrite Etr, (yields_app _ [_]). cbn [yields]. now rewrite app_nil_r.
  - now rewrite reports_app, Hr, reports_map_EvYield.
Qed.

Lemma success_is_reported_after_the_last_yield_witness :
  exists before,
    trace_of (chat_respond (sample_world "t1" (answered hi_there_items None))
                "hello" [] "sys" "m" 10%Z 1%Q 1%Q)
    = (before ++ [EvReport "t1" "success" None (Some "key")])%list /\
    yields before
    = yields (trace_of (chat_respond
                          (sample_world "t1" (answered hi_there_items None))
                          "hello" [] "sys" "m" 10%Z 1%Q 1%Q)) /\
    reports before = [].
Proof.
  apply (success_is_reported_after_the_last_yield
           (sample_world "t1" (answered hi_there_items None))
           "hello" [] "sys" "m" 10%Z 1%Q 1%Q "hf_tok" "t1").
  - split; reflexivity.
  - reflexivity.
  - reflexivity.
Defined.

(** ** The merger around the responder *)

(** X15.  The merger never raises and talks to nobody itself: for a blank
    message its run has no event but its one yield, and for any other message
    its events other than yields are, in order, those of the responder run on
    the history it was given. *)
Theorem merger_adds_no_interaction
    (w : World) (message : string) (history : list Message)
    (system_msg model_name : string)
    (max_tokens : Z) (temperature top_p : Q) :
  let run := handle_chat_submit w message history system_msg model_name
                                max_tokens temperature top_p in
  snd run = Returns tt /\
  interactions (fst run)
  = if str_truthy (strip message)
    then interactions (trace_of (chat_respond w message history system_msg
                                   model_name max_tokens temperature top_p))
    else [].
Proof.
  intros run. unfold run. destruct (str_truthy (strip message)) eqn:Hm.
  - rewrite (handle_chat_submit_nonblank _ _ _ _ _ _ _ _ Hm). cbn [fst snd].
    split; [apply responder_returns | apply interactions_for_each_yield].
  - unfold handle_chat_submit. rewrite Hm. split; reflexivity.
Qed.

(** X16.  For a message that is not blank, a failure of the responder ends
    up in the conversation: the last history the merger yields closes with an
    assistant turn whose content is the error string of the failure. *)
Theorem failure_becomes_the_assistant_turn
    (w : World) (message : string) (history : list Message)
    (system_msg model_name : string)
    (max_tokens : Z) (temperature top_p : Q) (e : exn) :
  str_truthy (strip message) = true ->
  fails_with w message history system_msg model_name
             max_tokens temperature top_p e ->
  last (yields (fst (handle_chat_submit w message history system_msg
                       model_name max_tokens temperature top_p)))
       (history, "")
  = ((history ++ [user_turn message;
                  assistant_turn
                    (format_error_message w (fst (error_category w e))
                                            (snd (error_category w e)))])%list,
     "").
Proof.
  intros Hm Hf.
  rewrite (handle_chat_submit_nonblank _ _ _ _ _ _ _ _ Hm). cbn [fst].
  rewrite yields_for_each_yield.
  destruct (responder_yields_on_failure _ _ _ _ _ _ _ _ _ Hf) as (n & ->).
  rewrite map_app. cbn [map]. rewrite last_last.
  now rewrite <- app_assoc.
Qed.

Lemma failure_becomes_the_assistant_turn_witness :
  last (yields (fst (handle_chat_submit
                       (sample_world "t1"
                          (answered [(1%Q, chunk_of "Hi")]
                             (Some (OtherException "boom"))))
                       "hello" one_exchange "sys" "m" 10%Z 1%Q 1%Q)))
       (one_exchange, "")
  = ((one_exchange
        ++ [user_turn "hello";
            assistant_turn
              "[Unexpected Error] An unexpected error occurred: boom"])%list,
     "").
Proof.
  apply (failure_becomes_the_assistant_turn
           (sample_world "t1"
              (answered [(1%Q, chunk_of "Hi")] (Some (OtherException "boom"))))
           "hello" one_exchange "sys" "m" 10%Z 1%Q 1%Q (OtherException "boom")).
  - reflexivity.
  - split; reflexivity.
Defined.

(** X17.  Whatever the message, every pair the merger yields clears the
    compose box and keeps the turns of the history it was given, in place, at
    the head of the yielded history. *)
Theorem merger_keeps_the_given_history
    (w : World) (message : string) (history : list Message)
    (system_msg model_name : string)
    (max_tokens : Z) (temperature top_p : Q) :
  forall h box,
    In (h, box)
       (yields (fst (handle_chat_submit w message history system_msg
                       model_name max_tokens temperature top_p))) ->
    box = "" /\ firstn (List.length history) h = history.
Proof.
  intros h box. destruct (str_truthy (strip message)) eqn:Hm.
  - rewrite (handle_chat_submit_nonblank _ _ _ _ _ _ _ _ Hm). cbn [fst].
    rewrite yields_for_each_yield. intros Hin.
    apply in_map_iff in Hin as (p & Hp & _). injection Hp as <- <-.
    split; [reflexivity|].
    rewrite <- app_assoc, firstn_app, firstn_all, Nat.sub_diag.
    cbn [firstn]. apply app_nil_r.
  - unfold handle_chat_submit. rewrite Hm. cbn.
    intros [Hp|[]]. injection Hp as <- <-.
    split; [reflexivity | apply firstn_all].
Qed.

Lemma merger_keeps_the_given_history_witness :
  "" = "" /\
  firstn (List.length one_exchange)
         (one_exchange ++ [user_turn "hello"; assistant_turn "Hi"])%list
  = one_exchange.
Proof.
  apply (merger_keeps_the_given_history
           (sample_world "t1" (answered hi_there_items None))
           "hello" one_exchange "sys" "m" 10%Z 1%Q 1%Q
           (one_exchange ++ [user_turn "hello"; assistant_turn "Hi"])%list "").
  left. reflexivity.
Defined.
